(** * yum/repository.go: repository metadata synchronisation and backend selection

    A shallow embedding of [src/yum/repository.go] (package [yum] of lbpkr)
    and the properties of its metadata codec, its two synchronisation
    modes and its query forwarding.

    Layout: Go's [time.Time] and [float64] as far as the code uses them,
    the host interface (network, file system, XML decoder), the [Backend]
    interface and the [Repository] struct, the functions of the file in
    source order, a concrete host used to run the code, then the theorems. *)

From Stdlib Require Import ZArith Lia Bool SpecFloat.
From stdpp Require Import base option list strings gmap.

Local Open Scope Z_scope.

(** ** Machine integers *)

(** Go's [int64] arithmetic wraps around; [wrap64] brings an integer back
    into the range of [int64]. *)
Definition wrap64 (z : Z) : Z := (z + 2 ^ 63) mod 2 ^ 64 - 2 ^ 63.

(** ** Go's [time.Time], as used by [checkRepoMD] and the staleness test

    An instant without monotonic clock reading is a number of seconds since
    January 1 of year 1 (the field [ext]) and a nanosecond offset in
    [0, 999999999] (the low bits of [wall]).  The location pointer plays no
    part in [After] and is left out. *)
Module GoTime.

Record Time := mkTime { sec : Z; nsec : Z }.

(** The zero value of the struct: what a map lookup that misses and a
    [RepoMD{}] literal carry. *)
Definition zero : Time := mkTime 0 0.

(** [unixToInternal]: seconds from year 1 to 1970. *)
Definition unixToInternal : Z :=
  (1969 * 365 + 1969 / 4 - 1969 / 100 + 1969 / 400) * 86400.

(** [time.Unix(sec, nsec)]: [nsec] outside [0, 999999999] is carried into
    [sec]; Go's [/] on integers truncates towards zero. *)
Definition Unix (s n : Z) : Time :=
  let '(s, n) :=
    if (n <? 0) || (1000000000 <=? n) then
      let q := Z.quot n 1000000000 in
      let s := wrap64 (s + q) in
      let n := n - q * 1000000000 in
      if n <? 0 then (wrap64 (s - 1), n + 1000000000) else (s, n)
    else (s, n) in
  mkTime (wrap64 (s + unixToInternal)) n.

(** [t.After(u)] *)
Definition After (t u : Time) : bool :=
  (sec u <? sec t) || ((sec t =? sec u) && (nsec u <? nsec t)).

End GoTime.

(** ** Go's [float64]: IEEE 754 binary64, on the Standard Library's
    [spec_float] *)
Module F64.

Definition prec : Z := 53.
Definition emax : Z := 1024.

Definition float64 : Type := spec_float.

Definition sub : float64 -> float64 -> float64 := SFsub prec emax.
Definition mul : float64 -> float64 -> float64 := SFmul prec emax.

(** [float64(i)] for an integer [i]: round to nearest, ties to even. *)
Definition of_int64 (i : Z) : float64 := binary_normalize prec emax i 0 false.

(** The constant [1e9]. *)
Definition f1e9 : float64 := of_int64 1000000000.

(** [math.Floor(x)]: the greatest integer value less than or equal to
    [x]; zero, NaN and the infinities are returned as they are.  A finite
    number with a non-negative exponent is an integer already; otherwise
    the integer below [(-1)^s * m * 2^e] is small enough to be a
    [float64] exactly. *)
Definition Floor (x : float64) : float64 :=
  match x with
  | S754_finite s m e =>
      if 0 <=? e then x
      else of_int64 ((if s then Zneg m else Zpos m) / 2 ^ (- e))
  | _ => x
  end.

(** [int64(x)]: the fraction is discarded (truncation towards zero).
    The language leaves the result open when the value does not fit;
    the amd64 conversion instruction then yields the smallest [int64],
    which is what is modelled. *)
Definition to_int64 (x : float64) : Z :=
  match x with
  | S754_zero _ => 0
  | S754_finite s m e =>
      let a := if 0 <=? e then Z.shiftl (Zpos m) e else Z.shiftr (Zpos m) (- e) in
      let v := if s then - a else a in
      if (- 2 ^ 63 <=? v) && (v <? 2 ^ 63) then v else - 2 ^ 63
  | _ => - 2 ^ 63
  end.

(** The number, finite, fits [int64] once its fraction is discarded. *)
Definition fits_int64 (x : float64) : Prop :=
  match x with
  | S754_zero _ => True
  | S754_finite s m e =>
      let a := if 0 <=? e then Z.shiftl (Zpos m) e else Z.shiftr (Zpos m) (- e) in
      - 2 ^ 63 <= (if s then - a else a) < 2 ^ 63
  | _ => False
  end.

(** [z] is the floor of the finite number [x = (-1)^s * m * 2^e]:
    [z <= x < z + 1], multiplied through by [2^(-e)] when [e] is
    negative. *)
Definition is_floor (x : float64) (z : Z) : Prop :=
  match x with
  | S754_zero _ => z = 0
  | S754_finite s m e =>
      let v := if s then Zneg m else Zpos m in
      if 0 <=? e then z = v * 2 ^ e
      else z * 2 ^ (- e) <= v < (z + 1) * 2 ^ (- e)
  | _ => False
  end.

(** [z] is the finite number [x] with its fraction discarded: the sign of
    [x] and the magnitude [a] with [a <= |x| < a + 1]. *)
Definition is_trunc (x : float64) (z : Z) : Prop :=
  match x with
  | S754_zero _ => z = 0
  | S754_finite s m e =>
      ∃ a, z = (if s then - a else a) ∧ 0 <= a ∧
           if 0 <=? e then a = Zpos m * 2 ^ e
           else a * 2 ^ (- e) <= Zpos m < (a + 1) * 2 ^ (- e)
  | _ => False
  end.

(** The finite number [x] is [n * 2^e] exactly. *)
Definition exact (x : float64) (n e : Z) : Prop :=
  match x with
  | S754_zero _ => n = 0
  | S754_finite s m' e' =>
      e' <= e ∧ (if s then Zneg m' else Zpos m') = n * 2 ^ (e - e')
  | _ => False
  end.

End F64.

(** ** Go values shared by the functions below *)

(** An [error] value; [nil] is [None] in [option error]. *)
Inductive error :=
| io_EOF
| errorString (msg : string).

Definition fmt_Errorf (msg : string) : error := errorString msg.

(** [err == io.EOF] *)
Definition is_EOF (err : error) : bool :=
  match err with
  | io_EOF => true
  | errorString _ => false
  end.

(** [[]byte]; the nil slice and the empty slice are both [[]]. *)
Definition bytes : Type := list Byte.byte.

(** The struct [xmlTree] that [checkRepoMD] decodes into. *)
Module xmlTree.
Record entry := mkEntry {
  Type_ : string;
  Checksum : string;
  Location_Href : string;
  Timestamp : F64.float64
}.
Record t := mk { Data : list entry }.
End xmlTree.

Record RepoMD := mkRepoMD {
  Checksum : string;
  Timestamp : GoTime.Time;
  Location : string
}.

(** The zero value [RepoMD{}]. *)
Definition RepoMD_zero : RepoMD := mkRepoMD "" GoTime.zero "".

(** A value of type [map[string]RepoMD]: [None] is the nil map, which
    reads like an empty one. *)
Definition GoMap : Type := option (gmap string RepoMD).

(** [v, ok := m[k]] *)
Definition map_index (m : GoMap) (k : string) : RepoMD * bool :=
  match m ≫= (.!! k) with
  | Some v => (v, true)
  | None => (RepoMD_zero, false)
  end.

(** [len(m)] *)
Definition map_len (m : GoMap) : nat := from_option size 0%nat m.

(** ** The host: what the file calls but does not define

    The network, the file system and the XML decoder, as functions on an
    abstract state of the world.  [path_exists] is a helper of the package
    that lives in another file.  [Package] stands for the values of type
    [*Package], [Reader] for an open response body or file. *)
Class Host := {
  World : Type;
  Package : Type;
  Reader : Type;
  http_Get : string → World → World * (Reader + error);
  path_exists : string → World → bool;
  os_Open : string → World → World * (Reader + error);
  io_Copy : Reader → World → World * (bytes * option error);
  Close : Reader → World → World;
  ioutil_WriteFile : string → bytes → World → World * option error;
  os_MkdirAll : string → World → World * option error;
  filepath_Join : string → string → string;
  xml_Unmarshal : bytes → xmlTree.t + error
}.

(** The interface [Backend]: a value is a record of its methods.
    [YumDataType] is taken to return the same identifier at every call,
    [HasDB] to read the world only. *)
Module Backend.
Record t `{Host} := mk {
  YumDataType : string;
  GetLatestDB : string → World → World * option error;
  HasDB : World → bool;
  LoadDB : World → World * option error;
  FindLatestMatchingName :
    string → string → string → World → World * (Package * option error);
  FindLatestMatchingRequire : string → World → World * (Package * option error);
  GetPackages : World → World * list Package
}.
End Backend.

(** The struct [Repository] (the logger [msg] is left out).  The field
    [Backend] holds an interface value: [None] is nil. *)
Module Repository.
Record t `{Host} := mk {
  Name : string;
  RepoUrl : string;
  RepoMdUrl : string;
  LocalRepoMdXml : string;
  CacheDir : string;
  Backends : list string;
  Backend : option Backend.t
}.

(** [repo.Backend = b] *)
Definition set_Backend `{Host} (repo : t) (b : option Backend.t) : t :=
  mk _ (Name repo) (RepoUrl repo) (RepoMdUrl repo) (LocalRepoMdXml repo)
     (CacheDir repo) (Backends repo) b.
End Repository.

(** [g_backends]: the registry of backend factories, filled by the
    backends' own files before any repository is built.  A factory gets
    the pointer to the repository; it is taken to read the struct, not to
    write it. *)
Definition factory `{Host} : Type :=
  Repository.t → World → World * (option Backend.t * option error).

Class Registry `{Host} := g_backends : gmap string factory.

(** ** Running the code: state, observable calls, panics *)

(** The calls a function makes to its collaborators, in order, with what
    they returned.  A call on a backend is recorded with the name of the
    candidate under evaluation. *)
Inductive event :=
| EvHttpGet (url : string)
| EvOpen (path : string)
| EvWriteFile (path : string) (data : bytes) (err : option error)
| EvNewBackend (bname : string) (err : option error)
| EvHasDB (bname : string) (has : bool)
| EvGetLatestDB (bname : string) (url : string) (err : option error)
| EvLoadDB (bname : string) (err : option error).

(** A call either returns a value or panics (a method call on a nil
    interface); either way it leaves a world behind and has made some
    observable calls. *)
Inductive Res `{Host} (A : Type) :=
| Ok (a : A) (w : World) (evs : list event)
| Panic (w : World) (evs : list event).
Arguments Ok {_ _} _ _ _.
Arguments Panic {_ _} _ _.

Definition M `{Host} (A : Type) : Type := World → Res A.

Section Monad.
Context `{Host}.

Definition events {A} (r : Res A) : list event :=
  match r with
  | Ok _ _ evs => evs
  | Panic _ evs => evs
  end.

Definition final {A} (r : Res A) : World :=
  match r with
  | Ok _ w _ => w
  | Panic w _ => w
  end.

Definition ret {A} (a : A) : M A := λ w, Ok a w [].

(** A result that comes after the calls [evs]. *)
Definition after {A} (evs : list event) (r : Res A) : Res A :=
  match r with
  | Ok a w evs' => Ok a w (evs ++ evs')
  | Panic w evs' => Panic w (evs ++ evs')
  end.

Definition bind {A B} (m : M A) (k : A → M B) : M B :=
  λ w, match m w with
       | Ok a w' evs => after evs (k a w')
       | Panic w' evs => Panic w' evs
       end.

Definition panic {A} : M A := λ w, Panic w [].

(** A host call: it transforms the world. *)
Definition host {A} (f : World → World * A) : M A :=
  λ w, Ok (f w).2 (f w).1 [].

(** A host call that only reads the world. *)
Definition peek {A} (f : World → A) : M A := λ w, Ok (f w) w [].

Definition log (e : event) : M unit := λ w, Ok tt w [e].

(** Using an interface value: nil panics. *)
Definition deref {A} (o : option A) : M A :=
  match o with
  | Some a => ret a
  | None => panic
  end.
End Monad.

Notation "x <- m ;; k" := (bind m (λ x, k))
  (at level 100, m at next level, right associativity, only parsing).
Notation "m ;; k" := (bind m (λ _, k))
  (at level 100, right associativity, only parsing).

(** ** The functions of [repository.go] *)

Section Yum.
Context `{Registry}.

Import Repository.

(** [NewBackend] returns a new backend of type [backend]. *)
Definition NewBackend (backend : string) (repo : Repository.t)
  : M (option Backend.t * option error) :=
  r <- match g_backends !! backend with
       | None =>
           ret (None, Some (fmt_Errorf ("yum: no such backend [" +:+ backend +:+ "]")))
       | Some factory => host (factory repo)
       end ;;
  log (EvNewBackend backend r.2) ;;
  ret r.

(** [repo.Backend.FindLatestMatchingName(name, version, release)] *)
Definition FindLatestMatchingName (repo : Repository.t) (name version release : string)
  : M (Package * option error) :=
  b <- deref (Backend repo) ;;
  host (Backend.FindLatestMatchingName b name version release).

Definition FindLatestMatchingRequire (repo : Repository.t) (requirement : string)
  : M (Package * option error) :=
  b <- deref (Backend repo) ;;
  host (Backend.FindLatestMatchingRequire b requirement).

Definition GetPackages (repo : Repository.t) : M (list Package) :=
  b <- deref (Backend repo) ;;
  host (Backend.GetPackages b).

(** [remoteMetadata] retrieves the repo metadata file content. *)
Definition remoteMetadata (repo : Repository.t) : M (bytes * option error) :=
  log (EvHttpGet (RepoMdUrl repo)) ;;
  resp <- host (http_Get (RepoMdUrl repo)) ;;
  match resp with
  | inr err => ret ([], Some err)
  | inl body =>
      r <- host (io_Copy body) ;;
      host (λ w, (Close body w, tt)) ;;
      match r.2 with
      | Some err => if is_EOF err then ret r else ret ([], Some err)
      | None => ret r
      end
  end.

(** [localMetadata] retrieves the repo metadata from the repomd file. *)
Definition localMetadata (repo : Repository.t) : M (bytes * option error) :=
  exists_ <- peek (path_exists (LocalRepoMdXml repo)) ;;
  if negb exists_ then ret ([], None)
  else
    log (EvOpen (LocalRepoMdXml repo)) ;;
    f <- host (os_Open (LocalRepoMdXml repo)) ;;
    match f with
    | inr err => ret ([], Some err)
    | inl f =>
        r <- host (io_Copy f) ;;
        host (λ w, (Close f w, tt)) ;;
        match r.2 with
        | Some err => if is_EOF err then ret r else ret ([], Some err)
        | None => ret r
        end
    end.

(** One turn of the loop of [checkRepoMD]. *)
Definition repomd_of_entry (data : xmlTree.entry) : RepoMD :=
  let sec := F64.to_int64 (F64.Floor (xmlTree.Timestamp data)) in
  let nsec :=
    F64.to_int64
      (F64.mul (F64.sub (xmlTree.Timestamp data) (F64.of_int64 sec)) F64.f1e9) in
  mkRepoMD (xmlTree.Checksum data) (GoTime.Unix sec nsec) (xmlTree.Location_Href data).

(** [checkRepoMD] parses the Repository metadata XML content. *)
Definition checkRepoMD (repo : Repository.t) (data : bytes) : GoMap * option error :=
  if (length data <=? 0)%nat then (None, None)
  else match xml_Unmarshal data with
       | inr err => (None, Some err)
       | inl tree =>
           (Some (fold_left (λ db data, <[xmlTree.Type_ data := repomd_of_entry data]> db)
                            (xmlTree.Data tree) ∅),
            None)
       end.
(** What a turn of a [for] loop ends with: [continue] or [break]. *)
Inductive control := Continue | Break.

(** The variables a candidate loop updates: the struct behind [repo] and
    the local variable [backend]. *)
Definition loop_vars : Type := Repository.t * option Backend.t.

(** Giving a candidate up: [backend = nil; repo.Backend = nil; continue]. *)
Definition abandon (repo : Repository.t) : M (control * loop_vars) :=
  ret (Continue, (set_Backend repo None, None)).

(** The end of a turn of either loop, from [repo.Backend.LoadDB()] on. *)
Definition load_candidate (bname : string) (vars : loop_vars) : M (control * loop_vars) :=
  b <- deref (Backend vars.1) ;;
  err <- host (Backend.LoadDB b) ;;
  log (EvLoadDB bname err) ;;
  match err with
  | Some _ => abandon vars.1
  | None => ret (Break, vars)
  end.

(** Whether the turn for a candidate downloads its database: the
    condition of line 166, on what [HasDB()] returned and the two
    records. *)
Definition needs_update (hasdb : bool) (rrepomd lrepomd : RepoMD) : bool :=
  negb hasdb || GoTime.After (Timestamp rrepomd) (Timestamp lrepomd).

(** One turn of the loop of [setupBackendFromRemote]. *)
Definition setupBackendFromRemote_turn (remotedata : bytes) (remotemd localmd : GoMap)
    (bname : string) (vars : loop_vars) : M (control * loop_vars) :=
  let '(repo, backend) := vars in
  r <- NewBackend bname repo ;;
  let '(ba, err) := r in
  match err with
  | Some _ => ret (Continue, (repo, backend))
  | None =>
      b <- deref ba ;;
      let '(rrepomd, ok) := map_index remotemd (Backend.YumDataType b) in
      if negb ok then ret (Continue, (repo, backend))
      else
        (* a priori a match *)
        let backend := ba in
        let repo := set_Backend repo backend in
        let '(lrepomd, _) := map_index localmd (Backend.YumDataType b) in
        b' <- deref (Backend repo) ;;
        hasdb <- peek (Backend.HasDB b') ;;
        log (EvHasDB bname hasdb) ;;
        if needs_update hasdb rrepomd lrepomd then
          (* we need to update the DB *)
          let url := RepoUrl repo +:+ "/" +:+ Location rrepomd in
          b' <- deref (Backend repo) ;;
          err <- host (Backend.GetLatestDB b' url) ;;
          log (EvGetLatestDB bname url err) ;;
          match err with
          | Some _ => abandon repo
          | None =>
              (* save metadata to local repomd file *)
              err <- host (ioutil_WriteFile (LocalRepoMdXml repo) remotedata) ;;
              log (EvWriteFile (LocalRepoMdXml repo) remotedata err) ;;
              match err with
              | Some _ => abandon repo
              | None => load_candidate bname (repo, backend)
              end
          end
        else load_candidate bname (repo, backend)
  end.

(** [for _, bname := range repo.Backends { ... }] *)
Fixpoint range_Backends (turn : string → loop_vars → M (control * loop_vars))
    (names : list string) (vars : loop_vars) : M loop_vars :=
  match names with
  | [] => ret vars
  | bname :: names =>
      r <- turn bname vars ;;
      match r.1 with
      | Continue => range_Backends turn names r.2
      | Break => ret r.2
      end
  end.

(** What both functions do after their loop. *)
Definition conclude (vars : loop_vars) (err : option error)
  : M (Repository.t * option error) :=
  match vars.2 with
  | None => ret (vars.1, Some (fmt_Errorf "No valid backend found"))
  | Some _ => ret (vars.1, err)
  end.

(** [setupBackendFromRemote] checks which backend should be used and
    updates the DB files.  The struct behind the receiver is returned
    with the error. *)
Definition setupBackendFromRemote (repo : Repository.t) : M (Repository.t * option error) :=
  let backend : option Backend.t := None in
  r <- remoteMetadata repo ;;
  let '(remotedata, err) := r in
  match err with
  | Some _ => ret (repo, err)
  | None =>
  let '(remotemd, err) := checkRepoMD repo remotedata in
  match err with
  | Some _ => ret (repo, err)
  | None =>
  r <- localMetadata repo ;;
  let '(localdata, err) := r in
  match err with
  | Some _ => ret (repo, err)
  | None =>
  let '(localmd, err) := checkRepoMD repo localdata in
  match err with
  | Some _ => ret (repo, err)
  | None =>
  vars <- range_Backends (setupBackendFromRemote_turn remotedata remotemd localmd)
                         (Backends repo) (repo, backend) ;;
  conclude vars err
  end end end end.

(** One turn of the loop of [setupBackendFromLocal]. *)
Definition setupBackendFromLocal_turn (md : GoMap) (bname : string) (vars : loop_vars)
  : M (control * loop_vars) :=
  let '(repo, backend) := vars in
  r <- NewBackend bname repo ;;
  let '(ba, err) := r in
  match err with
  | Some _ => ret (Continue, (repo, backend))
  | None =>
      b <- deref ba ;;
      let '(_, ok) := map_index md (Backend.YumDataType b) in
      if negb ok then ret (Continue, (repo, backend))
      else
        (* a priori a match *)
        let backend := ba in
        let repo := set_Backend repo backend in
        (* loading data necessary for the backend *)
        load_candidate bname (repo, backend)
  end.

Definition setupBackendFromLocal (repo : Repository.t) : M (Repository.t * option error) :=
  r <- localMetadata repo ;;
  let '(data, err) := r in
  match err with
  | Some _ => ret (repo, err)
  | None =>
  let '(md, err) := checkRepoMD repo data in
  match err with
  | Some _ => ret (repo, err)
  | None =>
  let backend : option Backend.t := None in
  vars <- range_Backends (setupBackendFromLocal_turn md) (Backends repo) (repo, backend) ;;
  conclude vars err
  end end.

(** [NewRepository] creates a new Repository with name and from url.
    The result is [(nil, err)] or [(&repo, nil)]. *)
Definition NewRepository (name url cachedir : string) (backends : list string)
    (setupBackend checkForUpdates : bool) : M (option Repository.t * option error) :=
  let repo :=
    Repository.mk _ name url (url +:+ "/repodata/repomd.xml")
      (filepath_Join cachedir "repomd.xml") cachedir backends None in
  err <- host (os_MkdirAll cachedir) ;;
  match err with
  | Some _ => ret (None, err)
  | None =>
      (* load appropriate backend if requested *)
      if setupBackend then
        r <- (if checkForUpdates then setupBackendFromRemote repo
              else setupBackendFromLocal repo) ;;
        match r.2 with
        | Some _ => ret (None, r.2)
        | None => ret (Some r.1, r.2)
        end
      else ret (Some repo, err)
  end.
End Yum.


(** ** What is observed of a run *)

Definition is_download (e : event) : bool :=
  match e with
  | EvGetLatestDB _ _ _ => true
  | _ => false
  end.

Definition is_write (e : event) : bool :=
  match e with
  | EvWriteFile _ _ _ => true
  | _ => false
  end.

Definition is_network (e : event) : bool :=
  match e with
  | EvHttpGet _ => true
  | _ => false
  end.

(** A download was performed: some backend's [GetLatestDB] was called. *)
Definition downloads (evs : list event) : bool := existsb is_download evs.

(** The cache file was written (whatever [WriteFile] returned). *)
Definition writes (evs : list event) : bool := existsb is_write evs.

(** The candidate names that were tried, in order: one per call of
    [NewBackend]. *)
Definition tried (evs : list event) : list string :=
  omap (λ e, match e with EvNewBackend bname _ => Some bname | _ => None end) evs.

(** A call that reported a failure. *)
Definition is_failure (e : event) : bool :=
  match e with
  | EvNewBackend _ (Some _) | EvGetLatestDB _ _ (Some _)
  | EvWriteFile _ _ (Some _) | EvLoadDB _ (Some _) => true
  | _ => false
  end.

(** A successful download. *)
Definition is_fetched (e : event) : bool :=
  match e with
  | EvGetLatestDB _ _ None => true
  | _ => false
  end.

(** A load that succeeded. *)
Definition is_loaded (e : event) : bool :=
  match e with
  | EvLoadDB _ None => true
  | _ => false
  end.

(** How a turn of a candidate loop ends, and how the loop does. *)
Inductive turn_end := Go_on | Chosen | Crash.
Inductive loop_end := Exhausted | Selected | Crashed.

(** The calls of one turn of the loop of [setupBackendFromRemote] for the
    candidate [b], with the cache file at [p] and the remote document
    [rd]: the paths through the body of the loop. *)
Inductive remote_turn_events (p : string) (rd : bytes) (b : string)
  : turn_end → list event → Prop :=
| rte_unavailable err :
    remote_turn_events p rd b Go_on [EvNewBackend b (Some err)]
| rte_nil :
    remote_turn_events p rd b Crash [EvNewBackend b None]
| rte_not_offered :
    remote_turn_events p rd b Go_on [EvNewBackend b None]
| rte_download_failed h url err :
    remote_turn_events p rd b Go_on
      [EvNewBackend b None; EvHasDB b h; EvGetLatestDB b url (Some err)]
| rte_persist_failed h url err :
    remote_turn_events p rd b Go_on
      [EvNewBackend b None; EvHasDB b h; EvGetLatestDB b url None;
       EvWriteFile p rd (Some err)]
| rte_updated_load_failed h url err :
    remote_turn_events p rd b Go_on
      [EvNewBackend b None; EvHasDB b h; EvGetLatestDB b url None;
       EvWriteFile p rd None; EvLoadDB b (Some err)]
| rte_updated h url :
    remote_turn_events p rd b Chosen
      [EvNewBackend b None; EvHasDB b h; EvGetLatestDB b url None;
       EvWriteFile p rd None; EvLoadDB b None]
| rte_kept_load_failed err :
    remote_turn_events p rd b Go_on
      [EvNewBackend b None; EvHasDB b true; EvLoadDB b (Some err)]
| rte_kept :
    remote_turn_events p rd b Chosen
      [EvNewBackend b None; EvHasDB b true; EvLoadDB b None].

(** The same for the loop of [setupBackendFromLocal]. *)
Inductive local_turn_events (b : string) : turn_end → list event → Prop :=
| lte_unavailable err :
    local_turn_events b Go_on [EvNewBackend b (Some err)]
| lte_nil :
    local_turn_events b Crash [EvNewBackend b None]
| lte_not_offered :
    local_turn_events b Go_on [EvNewBackend b None]
| lte_load_failed err :
    local_turn_events b Go_on [EvNewBackend b None; EvLoadDB b (Some err)]
| lte_loaded :
    local_turn_events b Chosen [EvNewBackend b None; EvLoadDB b None].

(** The calls of a whole loop over the names: turns that go on, then
    either the end of the list, the turn that is chosen, or a panic. *)
Inductive loop_events (T : string → turn_end → list event → Prop)
  : list string → loop_end → list event → Prop :=
| le_exhausted :
    loop_events T [] Exhausted []
| le_go_on b names o evs evs' :
    T b Go_on evs → loop_events T names o evs' →
    loop_events T (b :: names) o (evs ++ evs')
| le_chosen b names evs :
    T b Chosen evs → loop_events T (b :: names) Selected evs
| le_crash b names evs :
    T b Crash evs → loop_events T (b :: names) Crashed evs.

(** A call that fetches a metadata document. *)
Definition is_metadata_fetch (e : event) : bool :=
  match e with
  | EvHttpGet _ | EvOpen _ => true
  | _ => false
  end.

Section Results.
Context `{Registry}.
Import Repository.

(** The candidate [bname] as a turn builds it and loads it: the factory
    registered under the name returned the backend [ba] and no error;
    [LoadDB] was then called on [ba], in the world the factory left or in
    the one left by a successful [GetLatestDB] on [ba] and a successful
    write of the cache file after it, and returned no error, leaving the
    world [w']. *)
Definition built_and_loaded (bname : string) (ba : Backend.t) (w' : World) : Prop :=
  ∃ f repo0 w0 w1 w2,
    g_backends !! bname = Some f ∧ f repo0 w0 = (w1, (Some ba, None)) ∧
    (w2 = w1 ∨
     ∃ url p rd w, Backend.GetLatestDB ba url w1 = (w, None) ∧
                   ioutil_WriteFile p rd w = (w2, None)) ∧
    Backend.LoadDB ba w2 = (w', None).

(** The factory registered under [bname] returned neither a backend nor
    an error. *)
Definition builds_nothing (bname : string) : Prop :=
  ∃ f repo0 w0, g_backends !! bname = Some f ∧ (f repo0 w0).2 = (None, None).

(** What the turn for the candidate [bname] returns when it starts
    without a backend, by the way it ends: nothing active when it goes
    on; when it is chosen, the backend built for [bname], whose [LoadDB]
    just succeeded as the last call of the turn; a panic when the factory
    returned nothing to call a method on. *)
Definition turn_result (bname : string) (repo : Repository.t) (en : turn_end)
    (r : Res (control * loop_vars)) : Prop :=
  match en with
  | Go_on =>
      ∃ w', r = Ok (Continue, (repo, None)) w' (events r) ∨
            r = Ok (Continue, (set_Backend repo None, None)) w' (events r)
  | Chosen =>
      ∃ ba w', r = Ok (Break, (set_Backend repo (Some ba), Some ba)) w' (events r) ∧
               built_and_loaded bname ba w' ∧
               last (events r) = Some (EvLoadDB bname None)
  | Crash =>
      ∃ w', r = Panic w' (events r) ∧ builds_nothing bname ∧
            last (events r) = Some (EvNewBackend bname None)
  end.

(** The same for a whole loop. *)
Definition loop_result (repo : Repository.t) (o : loop_end) (r : Res loop_vars) : Prop :=
  match o with
  | Exhausted =>
      ∃ w', r = Ok (repo, None) w' (events r) ∨
            r = Ok (set_Backend repo None, None) w' (events r)
  | Selected =>
      ∃ bname ba w', r = Ok (set_Backend repo (Some ba), Some ba) w' (events r) ∧
                     built_and_loaded bname ba w' ∧
                     last (events r) = Some (EvLoadDB bname None)
  | Crashed =>
      ∃ bname w', r = Panic w' (events r) ∧ builds_nothing bname ∧
                  last (events r) = Some (EvNewBackend bname None)
  end.

(** And for a synchronisation that got as far as its loop. *)
Definition setup_result (repo : Repository.t) (o : loop_end)
    (r : Res (Repository.t * option error)) : Prop :=
  match o with
  | Exhausted =>
      ∃ w', r = Ok (repo, Some (fmt_Errorf "No valid backend found")) w' (events r) ∨
            r = Ok (set_Backend repo None, Some (fmt_Errorf "No valid backend found"))
                   w' (events r)
  | Selected =>
      ∃ bname ba w', r = Ok (set_Backend repo (Some ba), None) w' (events r) ∧
                     built_and_loaded bname ba w' ∧
                     last (events r) = Some (EvLoadDB bname None)
  | Crashed =>
      ∃ bname w', r = Panic w' (events r) ∧ builds_nothing bname ∧
                  last (events r) = Some (EvNewBackend bname None)
  end.
End Results.

(** A call that local-only synchronisation may make: reading the cached
    document, building a backend, loading its database. *)
Definition is_local_step (e : event) : bool :=
  match e with
  | EvOpen _ | EvNewBackend _ _ | EvLoadDB _ _ => true
  | _ => false
  end.

Section Reports.
Context `{Registry}.
Import Repository.

(** The error of the first metadata step of [setupBackendFromRemote] that
    fails, in the order of the source: the request, the decoding of its
    bytes, the read of the cache file, the decoding of its bytes.  [None]
    when all four succeed and the run goes on to its loop. *)
Definition remote_metadata_error (repo : Repository.t) (w : World) : option error :=
  match remoteMetadata repo w with
  | Ok (remotedata, None) w1 _ =>
      match (checkRepoMD repo remotedata).2 with
      | Some err => Some err
      | None =>
          match localMetadata repo w1 with
          | Ok (localdata, None) _ _ => (checkRepoMD repo localdata).2
          | Ok (_, Some err) _ _ => Some err
          | Panic _ _ => None
          end
      end
  | Ok (_, Some err) _ _ => Some err
  | Panic _ _ => None
  end.

(** The same for [setupBackendFromLocal]: the read of the cache file,
    then the decoding of its bytes. *)
Definition local_metadata_error (repo : Repository.t) (w : World) : option error :=
  match localMetadata repo w with
  | Ok (data, None) _ _ => (checkRepoMD repo data).2
  | Ok (_, Some err) _ _ => Some err
  | Panic _ _ => None
  end.

(** How a synchronisation treats its candidates, from what it returns
    and the calls it made; [failed] is the error of its metadata steps.

    When a metadata step failed, its error is returned, the repository is
    as it was and no candidate was tried.  Otherwise the names are tried
    in the order of the list and the run ends in one of three ways: with
    the error "No valid backend found", every name tried and no load
    successful; with success at the first successful load, its candidate
    the last one tried and the backend built for it active; with a panic
    right after a factory returned neither backend nor error.

    In every case a call that failed is followed by the call of
    [NewBackend] for the next name, if by anything. *)
Definition selection_report (failed : option error) (repo : Repository.t)
    (r : Res (Repository.t * option error)) : Prop :=
  match failed with
  | Some err => ∃ w', r = Ok (repo, Some err) w' (events r) ∧ tried (events r) = []
  | None =>
      match r with
      | Ok (repo', Some err) _ evs =>
          err = fmt_Errorf "No valid backend found" ∧
          tried evs = Backends repo ∧ existsb is_loaded evs = false ∧
          (repo' = repo ∨ repo' = set_Backend repo None)
      | Ok (repo', None) w' evs =>
          ∃ pre b post ba evs0,
            Backends repo = pre ++ b :: post ∧ tried evs = pre ++ [b] ∧
            evs = evs0 ++ [EvLoadDB b None] ∧ existsb is_loaded evs0 = false ∧
            repo' = set_Backend repo (Some ba) ∧ built_and_loaded b ba w'
      | Panic _ evs =>
          ∃ pre b post evs0,
            Backends repo = pre ++ b :: post ∧ tried evs = pre ++ [b] ∧
            evs = evs0 ++ [EvNewBackend b None] ∧ existsb is_loaded evs0 = false ∧
            builds_nothing b
      end
  end ∧
  (∀ pre e post,
     events r = pre ++ e :: post → is_failure e = true →
     post = [] ∨ ∃ b' r' tl, post = EvNewBackend b' r' :: tl).

(** The state of the repository after a synchronisation of [repo]: on
    success the active backend is the one built for a name of the list,
    and its [LoadDB] returned no error as the last call of the run,
    leaving the world the run ends in; on error none is active. *)
Definition sync_invariant (repo : Repository.t)
    (r : Res (Repository.t * option error)) : Prop :=
  match r with
  | Ok (repo', None) w' evs =>
      ∃ bname ba, bname ∈ Backends repo ∧ Backend repo' = Some ba ∧
                  built_and_loaded bname ba w' ∧
                  last evs = Some (EvLoadDB bname None)
  | Ok (repo', Some _) _ _ => Backend repo' = None
  | Panic _ _ => True
  end.
End Reports.

(** The staleness policy as the specification words it: without a local
    record for the data type, only a missing database forces an update. *)
Definition spec_needs_update (hasdb : bool) (rrepomd : RepoMD) (lrepomd : option RepoMD) : bool :=
  negb hasdb ||
  match lrepomd with
  | Some l => GoTime.After (Timestamp rrepomd) (Timestamp l)
  | None => false
  end.

(** The specification on who writes the cache file: a write that follows
    the download of a candidate is by the candidate that wins, the one
    whose successful [LoadDB] ends the run. *)
Definition spec_cache_only_by_winner (evs : list event) : Prop :=
  ∀ pre b url p d err post,
    evs = pre ++ EvGetLatestDB b url None :: EvWriteFile p d err :: post →
    last evs = Some (EvLoadDB b None).

(** The specification on a winner that needs no update (it has a database
    and is loaded without a download): the cache file is not written
    during the run. *)
Definition spec_kept_winner_no_write (evs : list event) : Prop :=
  ∀ pre b,
    evs = pre ++ [EvNewBackend b None; EvHasDB b true; EvLoadDB b None] →
    writes evs = false.

(** The specification on queries without an active backend: an error is
    returned. *)
Definition spec_query_fails `{Host} {A} (r : Res (A * option error)) : Prop :=
  ∃ a err w evs, r = Ok (a, Some err) w evs.

(** ** More observations *)

(** The last entry of a decoded document that declares the data type
    [k]. *)
Definition last_of_type (k : string) (l : list xmlTree.entry) : option xmlTree.entry :=
  last (filter (λ d, xmlTree.Type_ d = k) l).

(** A mapping without any entry: the nil map or an empty one. *)
Definition has_no_entry (md : GoMap) : Prop := ∀ k, (map_index md k).2 = false.

(** A call on a backend that reads, fetches or loads its database:
    [HasDB], [GetLatestDB] or [LoadDB].  [YumDataType()], the one other
    method the loops call, is a field of the record [Backend.t] and leaves
    no call behind: it is not among them. *)
Definition is_database_call (e : event) : bool :=
  match e with
  | EvHasDB _ _ | EvGetLatestDB _ _ _ | EvLoadDB _ _ => true
  | _ => false
  end.

(** Two results with the same value (or both a panic) and the same world:
    they differ in the calls made at most. *)
Definition same_outcome `{Host} {A} (r r' : Res A) : Prop :=
  match r, r' with
  | Ok a w _, Ok a' w' _ => a = a' ∧ w = w'
  | Panic w _, Panic w' _ => w = w'
  | _, _ => False
  end.

(** The name has a factory in [g_backends]. *)
Definition registered `{Registry} (bname : string) : bool :=
  bool_decide (is_Some (g_backends !! bname)).

(** A turn that only calls [NewBackend] and leaves the variables of the
    loop alone, or panics right after that call. *)
Definition skips `{Host} (turn : string → loop_vars → M (control * loop_vars)) : Prop :=
  ∀ b vars w,
    (∃ w' err, turn b vars w = Ok (Continue, vars) w' [EvNewBackend b err]) ∨
    (∃ w', turn b vars w = Panic w' [EvNewBackend b None]).

(** A download, if [e] is one, is of the location of a record of the
    remote mapping [rmd], below the URL [base]. *)
Definition offered_download (base : string) (rmd : GoMap) (e : event) : Prop :=
  match e with
  | EvGetLatestDB _ url _ =>
      ∃ k r, map_index rmd k = (r, true) ∧ url = base +:+ "/" +:+ Location r
  | _ => True
  end.

(** Every download is for a candidate whose [HasDB()] returned false. *)
Definition downloads_only_without_db (evs : list event) : Prop :=
  ∀ b url err, EvGetLatestDB b url err ∈ evs → EvHasDB b false ∈ evs.

(** ** A small host to run the code on

    Files are a finite map from paths to contents, the network serves one
    metadata document (or is down), the XML decoder knows a table of
    documents, and a backend keeps its database in a file of the cache
    directory. *)
Module Demo.

Fixpoint bytes_eqb (a b : bytes) : bool :=
  match a, b with
  | [], [] => true
  | x :: a, y :: b => Byte.eqb x y && bytes_eqb a b
  | _, _ => false
  end.

Fixpoint decode (docs : list (bytes * xmlTree.t)) (data : bytes) : xmlTree.t + error :=
  match docs with
  | [] => inr (errorString "expected element type <repomd>")
  | (d, tree) :: docs => if bytes_eqb d data then inl tree else decode docs data
  end.

Definition files : Type := gmap string bytes.

#[export] Instance host (net : option bytes) (docs : list (bytes * xmlTree.t)) : Host := {|
  World := files;
  Package := string;
  Reader := bytes;
  http_Get := λ _ w,
    (w, match net with
        | Some doc => inl doc
        | None => inr (errorString "dial tcp: connection refused")
        end);
  path_exists := λ p w, bool_decide (is_Some (w !! p));
  os_Open := λ p w,
    (w, match w !! p with
        | Some c => inl c
        | None => inr (errorString "open: no such file or directory")
        end);
  io_Copy := λ r w, (w, (r, None));
  Close := λ _ w, w;
  ioutil_WriteFile := λ p d w, (<[p := d]> w, None);
  os_MkdirAll := λ _ w, (w, None);
  filepath_Join := λ a b, a +:+ "/" +:+ b;
  xml_Unmarshal := decode docs
|}.

Section Backends.
Context (net : option bytes) (docs : list (bytes * xmlTree.t)).

Definition dbfile (ty : string) : string := "/cache/" +:+ ty +:+ ".db".

(** A backend for the data type [ty]; the download succeeds when
    [reachable], the load when [loadable] and the database file is there. *)
Definition backend (ty : string) (reachable loadable : bool) : @Backend.t (host net docs) :=
  Backend.mk (host net docs) ty
    (λ url (w : files),
       if reachable then (<[dbfile ty := [Byte.x01]]> w, None)
       else (w, Some (errorString "download failed")))
    (λ w : files, bool_decide (is_Some (w !! dbfile ty)))
    (λ w : files,
       if loadable && bool_decide (is_Some (w !! dbfile ty)) then (w, None)
       else (w, Some (errorString "cannot load the database")))
    (λ name _ _ (w : files), (w, (name, None)))
    (λ req (w : files), (w, (req, None)))
    (λ w : files, (w, [])).

Definition registry (l : list (string * @Backend.t (host net docs))) : @Registry (host net docs) :=
  (list_to_map
     ((λ nb, (nb.1, (λ _ w, (w, (Some nb.2, None))) : @factory (host net docs))) <$> l)
   : gmap string (@factory (host net docs))).

End Backends.

(** Two metadata documents and their decoded trees: the remote one has
    [sqlite] at 1000.5 seconds and [flat] at 1000 seconds, the cached one
    has both at 1000 seconds. *)
Definition f1000 : F64.float64 := S754_finite false (1000 * 2 ^ 43) (- 43).
Definition f1000_5 : F64.float64 := S754_finite false (2001 * 2 ^ 42) (- 43).

(** The [float64] nearest to 1.6e-9 and to -0.5. *)
Definition f1_6e_9 : F64.float64 := S754_finite false 7737125245533627 (- 82).
Definition fm0_5 : F64.float64 := S754_finite true (2 ^ 52) (- 53).

Definition doc_new : bytes := [Byte.x3c; Byte.x02].
Definition doc_old : bytes := [Byte.x3c; Byte.x01].

Definition tree_new : xmlTree.t :=
  xmlTree.mk [xmlTree.mkEntry "sqlite" "c0ffee" "repodata/primary.sqlite.bz2" f1000_5;
              xmlTree.mkEntry "flat" "decaf" "repodata/primary.xml.gz" f1000].
Definition tree_old : xmlTree.t :=
  xmlTree.mk [xmlTree.mkEntry "sqlite" "c0ffee" "repodata/primary.sqlite.bz2" f1000;
              xmlTree.mkEntry "flat" "decaf" "repodata/primary.xml.gz" f1000].

Definition docs : list (bytes * xmlTree.t) := [(doc_new, tree_new); (doc_old, tree_old)].

(** The host with the network up, serving [doc_new]. *)
Definition up : Host := host (Some doc_new) docs.

(** A [sqlite] backend whose database downloads but does not load, and a
    [flat] backend that works. *)
Definition sqlite_broken : @Backend.t up := backend (Some doc_new) docs "sqlite" true false.
Definition flat_ok : @Backend.t up := backend (Some doc_new) docs "flat" true true.

Definition reg : @Registry up :=
  registry (Some doc_new) docs [("sqlite", sqlite_broken); ("flat", flat_ok)].

Definition repo_of (backends : list string) (b : option (@Backend.t up)) : @Repository.t up :=
  Repository.mk up "lhcb" "http://repo" "http://repo/repodata/repomd.xml"
    "/cache/repomd.xml" "/cache" backends b.

Definition db : bytes := [Byte.x01].

(** Worlds: only the [flat] database; both databases and the older
    document in the cache; the [flat] database and the older document;
    a cached document without bytes. *)
Definition w_flat_only : files := {[ "/cache/flat.db" := db ]}.
Definition w_both_cached : files :=
  {[ "/cache/sqlite.db" := db; "/cache/flat.db" := db; "/cache/repomd.xml" := doc_old ]}.
Definition w_flat_cached : files :=
  {[ "/cache/flat.db" := db; "/cache/repomd.xml" := doc_old ]}.
Definition w_empty_cache : files := {[ "/cache/repomd.xml" := [] ]}.

(** The mappings decoded from the two documents. *)
Definition md_new : GoMap := (@checkRepoMD up (repo_of [] None) doc_new).1.
Definition md_old : GoMap := (@checkRepoMD up (repo_of [] None) doc_old).1.

(** The record of [flat] in both documents, the synchronisation of the
    two candidates, and one turn of its loop for [flat] alone. *)
Definition flat_record : RepoMD :=
  mkRepoMD "decaf" (GoTime.Unix 1000 0) "repodata/primary.xml.gz".

Definition run_both (w : files) : @Res up (Repository.t * option error) :=
  @setupBackendFromRemote up reg (repo_of ["sqlite"; "flat"] None) w.

Definition flat_turn (lmd : GoMap) : @Res up (control * loop_vars) :=
  @setupBackendFromRemote_turn up reg doc_new md_new lmd "flat"
    (repo_of ["flat"] None, None) w_flat_only.

End Demo.

(** ** More worlds for the small host *)
Module Demo2.
Import Demo.

(** A document with two entries for [sqlite], the later one newer; bytes
    that do not decode. *)
Definition doc_dup : bytes := [Byte.x3c; Byte.x03].
Definition tree_dup : xmlTree.t :=
  xmlTree.mk [xmlTree.mkEntry "sqlite" "0ld" "repodata/old.sqlite.bz2" f1000;
              xmlTree.mkEntry "flat" "decaf" "repodata/primary.xml.gz" f1000;
              xmlTree.mkEntry "sqlite" "c0ffee" "repodata/primary.sqlite.bz2" f1000_5].
Definition doc_bad : bytes := [Byte.x00].

(** The host that decodes [doc_dup] too. *)
Definition dup : Host := host (Some doc_dup) ((doc_dup, tree_dup) :: docs).

(** The host with the network down, and the host whose server answers
    with no bytes, each with a registry that knows [flat]. *)
Definition down : Host := host None docs.
Definition reg_down : @Registry down :=
  registry None docs [("flat", backend None docs "flat" true true)].
Definition mute : Host := host (Some []) docs.
Definition reg_mute : @Registry mute :=
  registry (Some []) docs [("flat", backend (Some []) docs "flat" true true)].

Definition repo_on (H : Host) (backends : list string) : @Repository.t H :=
  Repository.mk H "lhcb" "http://repo" "http://repo/repodata/repomd.xml"
    "/cache/repomd.xml" "/cache" backends None.

(** Worlds: a cache file that does not decode; the [flat] database with
    the cache file holding the remote document. *)
Definition w_bad_cache : files := {[ "/cache/repomd.xml" := doc_bad ]}.
Definition w_fresh_cache : files :=
  {[ "/cache/flat.db" := db; "/cache/repomd.xml" := doc_new ]}.

(** The map behind [md_new]. *)
Definition map_new : gmap string RepoMD := default ∅ md_new.

End Demo2.


(** ** Properties *)

(** *** Running a computation step by step *)

Section Exec.
Context `{Host}.

Lemma after_nil {A} (r : Res A) : after [] r = r.
Proof. by destruct r. Qed.

Lemma after_after {A} evs evs' (r : Res A) :
  after evs (after evs' r) = after (evs ++ evs') r.
Proof. destruct r; simpl; by rewrite app_assoc. Qed.

Lemma events_after {A} evs (r : Res A) : events (after evs r) = evs ++ events r.
Proof. by destruct r. Qed.

Lemma final_after {A} evs (r : Res A) : final (after evs r) = final r.
Proof. by destruct r. Qed.

Lemma bind_ret {A B} (a : A) (k : A → M B) w : bind (ret a) k w = k a w.
Proof. unfold bind, ret. apply after_nil. Qed.

Lemma bind_host {A B} (f : World → World * A) (k : A → M B) w :
  bind (host f) k w = k (f w).2 (f w).1.
Proof. unfold bind, host. apply after_nil. Qed.

Lemma bind_peek {A B} (f : World → A) (k : A → M B) w :
  bind (peek f) k w = k (f w) w.
Proof. unfold bind, peek. apply after_nil. Qed.

Lemma bind_log {B} e (k : unit → M B) w : bind (log e) k w = after [e] (k tt w).
Proof. done. Qed.

Lemma bind_deref {A B} (a : A) (k : A → M B) w : bind (deref (Some a)) k w = k a w.
Proof. apply bind_ret. Qed.

Lemma bind_nil {A B} (k : A → M B) w : bind (deref None) k w = Panic w [].
Proof. done. Qed.

Lemma bind_Ok {A B} (m : M A) (k : A → M B) w a w' evs :
  m w = Ok a w' evs → bind m k w = after evs (k a w').
Proof. unfold bind. by intros ->. Qed.

Lemma bind_bind {A B C} (m : M A) (k : A → M B) (k' : B → M C) w :
  bind (bind m k) k' w = bind m (λ a, bind (k a) k') w.
Proof.
  unfold bind. destruct (m w) as [a w' evs|]; [|done].
  destruct (k a w') as [b w'' evs'|]; simpl; [|done].
  by rewrite after_after.
Qed.
End Exec.

(** Runs the computation in the goal as far as the calls are known. *)
Ltac exec :=
  repeat first
    [ rewrite bind_ret | rewrite bind_host | rewrite bind_peek | rewrite bind_log
    | rewrite bind_deref | rewrite bind_nil | rewrite bind_bind
    | rewrite after_after | rewrite events_after | rewrite final_after
    | progress simpl ].

(** *** The candidate loops *)

Section Loops.
Context `{Registry}.
Import Repository.

Lemma NewBackend_returns bname repo w :
  ∃ r w', NewBackend bname repo w = Ok r w' [EvNewBackend bname r.2].
Proof.
  unfold NewBackend.
  destruct (g_backends !! bname) as [f|]; exec.
  - by eexists _, _.
  - by eexists (_, _), _.
Qed.

Lemma NewBackend_built bname repo w ba w' evs :
  NewBackend bname repo w = Ok (ba, None) w' evs →
  ∃ f, g_backends !! bname = Some f ∧ f repo w = (w', (ba, None)).
Proof.
  unfold NewBackend.
  destruct (g_backends !! bname) as [f|]; exec; [|done].
  intros [= Hr <- _]. exists f. split; [done|].
  destruct (f repo w) as [w1 r]. simpl in *. by subst.
Qed.

Lemma load_candidate_run bname repo backend b w :
  Backend repo = Some b →
  load_candidate bname (repo, backend) w =
    Ok (match (Backend.LoadDB b w).2 with
        | Some _ => (Continue, (set_Backend repo None, None))
        | None => (Break, (repo, backend))
        end) (Backend.LoadDB b w).1 [EvLoadDB bname (Backend.LoadDB b w).2].
Proof.
  intros Hb. unfold load_candidate. simpl. rewrite Hb. exec.
  by destruct (Backend.LoadDB b w).2.
Qed.

Lemma remote_turn_sound rd rmd lmd bname repo w :
  let r := setupBackendFromRemote_turn rd rmd lmd bname (repo, None) w in
  ∃ en, remote_turn_events (LocalRepoMdXml repo) rd bname en (events r) ∧
        turn_result bname repo en r.
Proof.
  unfold setupBackendFromRemote_turn.
  destruct (NewBackend_returns bname repo w) as ([ba err] & w1 & Hnb).
  rewrite (bind_Ok _ _ _ _ _ _ Hnb). simpl in *.
  destruct err as [err|]; exec.
  { exists Go_on. split; [constructor|]. exists w1. by left. }
  destruct (NewBackend_built _ _ _ _ _ _ Hnb) as (f & Hf & Hbuilt).
  destruct ba as [b|]; exec; cycle 1.
  { exists Crash. split; [constructor|]. exists w1. split_and!; [done| |done].
    exists f, repo, w. by rewrite Hbuilt. }
  destruct (map_index rmd (Backend.YumDataType b)) as [rrepomd []]; exec; cycle 1.
  { exists Go_on. split; [apply rte_not_offered|]. exists w1. by left. }
  destruct (map_index lmd (Backend.YumDataType b)) as [lrepomd ?]; exec.
  destruct (needs_update _ _ _) eqn:Hn; exec.
  - destruct (Backend.GetLatestDB b _ w1) as [w2 [e|]] eqn:Hg; exec.
    { exists Go_on. split; [constructor|]. exists w2. by right. }
    destruct (ioutil_WriteFile _ _ w2) as [w3 [e|]] eqn:Hw; exec.
    { exists Go_on. split; [constructor|]. exists w3. by right. }
    rewrite (load_candidate_run _ _ _ b) by done. simpl.
    destruct (Backend.LoadDB b w3) as [w4 [e|]] eqn:Hl; simpl.
    + exists Go_on. split; [constructor|]. exists w4. by right.
    + exists Chosen. split; [constructor|]. exists b, w4. split_and!; [done| |done].
      exists f, repo, w, w1, w3. split_and!; [done|done| |done].
      right. by eexists _, _, _, w2.
  - rewrite (load_candidate_run _ _ _ b) by done. simpl.
    assert (Backend.HasDB b w1 = true) as ->.
    { unfold needs_update in Hn. by destruct (Backend.HasDB b w1). }
    destruct (Backend.LoadDB b w1) as [w4 [e|]] eqn:Hl; simpl.
    + exists Go_on. split; [constructor|]. exists w4. by right.
    + exists Chosen. split; [constructor|]. exists b, w4. split_and!; [done| |done].
      exists f, repo, w, w1, w1. split_and!; [done|done|by left|done].
Qed.

Lemma local_turn_sound md bname repo w :
  let r := setupBackendFromLocal_turn md bname (repo, None) w in
  ∃ en, local_turn_events bname en (events r) ∧ turn_result bname repo en r.
Proof.
  unfold setupBackendFromLocal_turn.
  destruct (NewBackend_returns bname repo w) as ([ba err] & w1 & Hnb).
  rewrite (bind_Ok _ _ _ _ _ _ Hnb). simpl in *.
  destruct err as [err|]; exec.
  { exists Go_on. split; [constructor|]. exists w1. by left. }
  destruct (NewBackend_built _ _ _ _ _ _ Hnb) as (f & Hf & Hbuilt).
  destruct ba as [b|]; exec; cycle 1.
  { exists Crash. split; [constructor|]. exists w1. split_and!; [done| |done].
    exists f, repo, w. by rewrite Hbuilt. }
  destruct (map_index md (Backend.YumDataType b)) as [rrepomd []]; exec; cycle 1.
  { exists Go_on. split; [apply lte_not_offered|]. exists w1. by left. }
  rewrite (load_candidate_run _ _ _ b) by done. simpl.
  destruct (Backend.LoadDB b w1) as [w4 [e|]] eqn:Hl; simpl.
  - exists Go_on. split; [constructor|]. exists w4. by right.
  - exists Chosen. split; [constructor|]. exists b, w4. split_and!; [done| |done].
    exists f, repo, w, w1, w1. split_and!; [done|done|by left|done].
Qed.

(** A loop whose turns follow [T] follows [loop_events T]. *)
Lemma range_Backends_sound (T : string → string → turn_end → list event → Prop) turn :
  (∀ bname repo w,
     ∃ en, T (LocalRepoMdXml repo) bname en (events (turn bname (repo, None) w)) ∧
           turn_result bname repo en (turn bname (repo, None) w)) →
  ∀ names repo w,
    let r := range_Backends turn names (repo, None) w in
    ∃ o, loop_events (T (LocalRepoMdXml repo)) names o (events r) ∧ loop_result repo o r.
Proof.
  intros Hturn names. induction names as [|bname names IH]; intros repo w; simpl.
  { exists Exhausted. split; [constructor|]. exists w. by left. }
  destruct (Hturn bname repo w) as (en & HT & Hr).
  destruct en; simpl in Hr.
  - assert (∃ repo' w', (repo' = repo ∨ repo' = set_Backend repo None) ∧
              turn bname (repo, None) w =
                Ok (Continue, (repo', None)) w' (events (turn bname (repo, None) w)))
      as (repo' & w' & Hrepo' & Hrun).
    { destruct Hr as [w' [Hr|Hr]]; eexists _, w'; (split; [|exact Hr]); eauto. }
    assert (LocalRepoMdXml repo' = LocalRepoMdXml repo) as Hp
      by (by destruct Hrepo' as [->| ->]).
    rewrite (bind_Ok _ _ _ _ _ _ Hrun). simpl.
    destruct (IH repo' w') as (o & HL & Hres).
    exists o. rewrite events_after. rewrite Hp in HL. split; [by constructor|].
    revert Hres. generalize (range_Backends turn names (repo', None) w').
    intros r Hres. destruct o; simpl in *.
    + destruct Hres as [w'' Hres]. exists w''. rewrite events_after.
      destruct Hrepo' as [->| ->]; destruct Hres as [Hres|Hres]; rewrite Hres; simpl; eauto.
    + destruct Hres as (b & ba & w'' & Hres & Hl & Hlast). exists b, ba, w''.
      rewrite events_after, last_app, Hlast.
      split_and!; [|done|done]. rewrite Hres. simpl. by destruct Hrepo' as [->| ->].
    + destruct Hres as (b & w'' & Hres & Hn & Hlast). exists b, w''.
      rewrite events_after, last_app, Hlast.
      split_and!; [|done|done]. rewrite Hres. done.
  - destruct Hr as (ba & w' & Hr & Hl & Hlast).
    rewrite (bind_Ok _ _ _ _ _ _ Hr). exec. rewrite app_nil_r.
    exists Selected. split; [by constructor|]. by exists bname, ba, w'.
  - destruct Hr as (w' & Hr & Hn & Hlast).
    exists Crashed. unfold bind. rewrite Hr. simpl. split; [by constructor|].
    by exists bname, w'.
Qed.
End Loops.

(** *** The two synchronisation functions *)

Section Setup.
Context `{Registry}.
Import Repository.

Lemma remoteMetadata_returns repo w :
  ∃ r w', remoteMetadata repo w = Ok r w' [EvHttpGet (RepoMdUrl repo)].
Proof.
  unfold remoteMetadata. exec.
  destruct (http_Get _ w) as [w1 [body|err]]; exec; [|by eexists _, _].
  destruct (io_Copy body w1) as [w2 [data [err|]]]; exec; [|by eexists _, _].
  destruct (is_EOF err); exec; by eexists _, _.
Qed.

Lemma localMetadata_returns repo w :
  ∃ r w' evs, localMetadata repo w = Ok r w' evs ∧
              (evs = [] ∨ evs = [EvOpen (LocalRepoMdXml repo)]).
Proof.
  unfold localMetadata. exec.
  destruct (path_exists _ w); exec; [|by eexists _, _, _; eauto].
  destruct (os_Open _ w) as [w1 [f|err]]; exec; [|by eexists _, _, _; eauto].
  destruct (io_Copy f w1) as [w2 [data [err|]]]; exec; [|by eexists _, _, _; eauto].
  destruct (is_EOF err); exec; by eexists _, _, _; eauto.
Qed.

Lemma conclude_result repo o (m : M loop_vars) w :
  loop_result repo o (m w) → setup_result repo o (bind m (λ vars, conclude vars None) w).
Proof.
  unfold bind. destruct o; simpl.
  - intros [w' [-> | ->]]; exists w'; simpl; rewrite app_nil_r; eauto.
  - intros (b & ba & w' & -> & Hl & Hlast). exists b, ba, w'. simpl in *.
    by rewrite app_nil_r.
  - intros (b & w' & -> & Hn & Hlast). by exists b, w'.
Qed.

Lemma events_conclude (m : M loop_vars) w :
  events (bind m (λ vars, conclude vars None) w) = events (m w).
Proof.
  unfold bind, conclude. destruct (m w) as [vars w' evs|]; [|done].
  destruct vars.2; simpl; by rewrite app_nil_r.
Qed.

Lemma setup_result_after repo o evs (r : Res (Repository.t * option error)) :
  setup_result repo o r → setup_result repo o (after evs r).
Proof.
  destruct o; simpl.
  - intros [w' [-> | ->]]; exists w'; simpl; eauto.
  - intros (b & ba & w' & -> & Hl & Hlast). exists b, ba, w'. simpl in *.
    by rewrite last_app, Hlast.
  - intros (b & w' & -> & Hn & Hlast). exists b, w'. simpl in *.
    by rewrite last_app, Hlast.
Qed.

(** How [setupBackendFromRemote] runs: it returns the error of the first
    metadata step that fails, or goes through its loop. *)
Lemma setupBackendFromRemote_steps repo w :
  let r := setupBackendFromRemote repo w in
  match remote_metadata_error repo w with
  | Some err =>
      ∃ w', r = Ok (repo, Some err) w' (events r) ∧
            forallb is_metadata_fetch (events r) = true
  | None =>
      ∃ rd w1 evs0 evs o,
        remoteMetadata repo w = Ok (rd, None) w1 [EvHttpGet (RepoMdUrl repo)] ∧
        events r = evs0 ++ evs ∧ forallb is_metadata_fetch evs0 = true ∧
        loop_events (remote_turn_events (LocalRepoMdXml repo) rd) (Backends repo) o evs ∧
        setup_result repo o r
  end.
Proof.
  unfold setupBackendFromRemote, remote_metadata_error.
  destruct (remoteMetadata_returns repo w) as ([rd err] & w1 & Hrm).
  rewrite (bind_Ok _ _ _ _ _ _ Hrm), Hrm.
  destruct err as [err|]; exec.
  { by exists w1. }
  destruct (checkRepoMD repo rd) as [rmd [err|]]; exec.
  { by exists w1. }
  destruct (localMetadata_returns repo w1) as ([ld err] & w2 & evs1 & Hlm & Hevs1).
  rewrite (bind_Ok _ _ _ _ _ _ Hlm), Hlm.
  assert (forallb is_metadata_fetch evs1 = true) as Hf by (by destruct Hevs1 as [->| ->]).
  destruct err as [err|]; exec.
  { exists w2. rewrite app_nil_r. simpl. by rewrite Hf. }
  destruct (checkRepoMD repo ld) as [lmd [err|]]; exec.
  { exists w2. rewrite app_nil_r. simpl. by rewrite Hf. }
  destruct (range_Backends_sound (λ p, remote_turn_events p rd)
              (setupBackendFromRemote_turn rd rmd lmd)
              (remote_turn_sound rd rmd lmd) (Backends repo) repo w2)
    as (o & HL & Hres).
  eexists rd, w1, (EvHttpGet (RepoMdUrl repo) :: evs1), _, o.
  split; [done|]. split; [|split; [done|split; [exact HL|]]].
  - by rewrite events_conclude.
  - apply setup_result_after. by apply conclude_result.
Qed.

Lemma setupBackendFromRemote_report repo w :
  let r := setupBackendFromRemote repo w in
  (∃ err w', r = Ok (repo, Some err) w' (events r) ∧
             forallb is_metadata_fetch (events r) = true) ∨
  (∃ rd w1 evs0 evs o,
     remoteMetadata repo w = Ok (rd, None) w1 [EvHttpGet (RepoMdUrl repo)] ∧
     events r = evs0 ++ evs ∧ forallb is_metadata_fetch evs0 = true ∧
     loop_events (remote_turn_events (LocalRepoMdXml repo) rd) (Backends repo) o evs ∧
     setup_result repo o r).
Proof.
  pose proof (setupBackendFromRemote_steps repo w) as Hs. cbv zeta in Hs.
  destruct (remote_metadata_error repo w) as [err|]; [left; by exists err|by right].
Qed.

(** How [setupBackendFromLocal] runs. *)
Lemma setupBackendFromLocal_steps repo w :
  let r := setupBackendFromLocal repo w in
  match local_metadata_error repo w with
  | Some err =>
      ∃ w', r = Ok (repo, Some err) w' (events r) ∧
            (events r = [] ∨ events r = [EvOpen (LocalRepoMdXml repo)])
  | None =>
      ∃ evs0 evs o,
        events r = evs0 ++ evs ∧
        (evs0 = [] ∨ evs0 = [EvOpen (LocalRepoMdXml repo)]) ∧
        loop_events local_turn_events (Backends repo) o evs ∧
        setup_result repo o r
  end.
Proof.
  unfold setupBackendFromLocal, local_metadata_error.
  destruct (localMetadata_returns repo w) as ([ld err] & w2 & evs1 & Hlm & Hevs1).
  rewrite (bind_Ok _ _ _ _ _ _ Hlm), Hlm.
  destruct err as [err|]; exec.
  { exists w2. by rewrite app_nil_r. }
  destruct (checkRepoMD repo ld) as [md [err|]]; exec.
  { exists w2. by rewrite app_nil_r. }
  destruct (range_Backends_sound (λ _, local_turn_events)
              (setupBackendFromLocal_turn md)
              (local_turn_sound md) (Backends repo) repo w2)
    as (o & HL & Hres).
  eexists evs1, _, o.
  split; [|split; [done|split; [exact HL|]]].
  - by rewrite events_conclude.
  - apply setup_result_after. by apply conclude_result.
Qed.

Lemma setupBackendFromLocal_report repo w :
  let r := setupBackendFromLocal repo w in
  (∃ err w', r = Ok (repo, Some err) w' (events r) ∧
             (events r = [] ∨ events r = [EvOpen (LocalRepoMdXml repo)])) ∨
  (∃ evs0 evs o,
     events r = evs0 ++ evs ∧
     (evs0 = [] ∨ evs0 = [EvOpen (LocalRepoMdXml repo)]) ∧
     loop_events local_turn_events (Backends repo) o evs ∧
     setup_result repo o r).
Proof.
  pose proof (setupBackendFromLocal_steps repo w) as Hs. cbv zeta in Hs.
  destruct (local_metadata_error repo w) as [err|]; [left; by exists err|by right].
Qed.
End Setup.

(** *** What the calls of a loop look like *)

Section Grammar.

Lemma remote_turn_starts p rd b en evs :
  remote_turn_events p rd b en evs → ∃ r tl, evs = EvNewBackend b r :: tl.
Proof. destruct 1; by eexists _, _. Qed.

Lemma local_turn_starts b en evs :
  local_turn_events b en evs → ∃ r tl, evs = EvNewBackend b r :: tl.
Proof. destruct 1; by eexists _, _. Qed.

Lemma remote_turn_tried p rd b en evs :
  remote_turn_events p rd b en evs → tried evs = [b].
Proof. by destruct 1. Qed.

Lemma local_turn_tried b en evs :
  local_turn_events b en evs → tried evs = [b].
Proof. by destruct 1. Qed.

Lemma tried_app evs evs' : tried (evs ++ evs') = tried evs ++ tried evs'.
Proof. apply omap_app. Qed.

Variable T : string → turn_end → list event → Prop.
Hypothesis T_starts : ∀ b en evs, T b en evs → ∃ r tl, evs = EvNewBackend b r :: tl.

(** Every call of a loop belongs to the turn of one candidate, and what
    follows that turn, if anything, is the next call of [NewBackend]. *)
Lemma loop_events_turn names o evs :
  loop_events T names o evs →
  ∀ pre e post, evs = pre ++ e :: post →
  ∃ b en tpre tpost before rest,
    b ∈ names ∧ T b en (tpre ++ e :: tpost) ∧
    pre = before ++ tpre ∧ post = tpost ++ rest ∧
    (rest = [] ∨ ∃ b' r tl, rest = EvNewBackend b' r :: tl) ∧
    (en ≠ Go_on → rest = []).
Proof.
  induction 1 as [|b names o evs evs' HT HL IH|b names evs HT|b names evs HT];
    intros pre e post Heq.
  - by destruct pre.
  - apply app_eq_app in Heq as [l [[-> Heq]|[-> Heq]]].
    + destruct l as [|e' l]; simpl in *.
      * destruct (IH [] e post (eq_sym Heq))
          as (b' & en & tpre & tpost & before & rest & Hin & HT' & Hpre & -> & Hrest & Hen).
        exists b', en, tpre, tpost, (pre ++ before), rest.
        repeat split; [by right|done| |done|done].
        by rewrite <- app_assoc, <- Hpre, app_nil_r.
      * simplify_eq. exists b, Go_on, pre, l, [], evs'.
        repeat split; [by left|done| |done].
        destruct HL as [|b' ? ? evs1 ? HT' _|b' ? evs1 HT'|b' ? evs1 HT']; [by left|..];
          destruct (T_starts _ _ _ HT') as (r & tl & ->); right; by eexists _, _, _.
    + destruct (IH l e post Heq)
        as (b' & en & tpre & tpost & before & rest & Hin & HT' & -> & -> & Hrest & Hen).
      exists b', en, tpre, tpost, (evs ++ before), rest.
      repeat split; [by right|done| |done|done]. by rewrite app_assoc.
  - exists b, Chosen, pre, post, [], []. rewrite app_nil_r. subst.
    repeat split; [by left|done|by left].
  - exists b, Crash, pre, post, [], []. rewrite app_nil_r. subst.
    repeat split; [by left|done|by left].
Qed.
End Grammar.

(** *** Reports on a synchronisation *)

Section Report.
Context `{Registry}.
Import Repository.

Lemma tried_metadata evs : forallb is_metadata_fetch evs = true → tried evs = [].
Proof.
  induction evs as [|e evs IH]; [done|]. simpl. intros [He Hevs]%andb_true_iff.
  destruct e; try done; by apply IH.
Qed.

Lemma loaded_metadata evs :
  forallb is_metadata_fetch evs = true → existsb is_loaded evs = false.
Proof.
  induction evs as [|e evs IH]; [done|]. simpl. intros [He Hevs]%andb_true_iff.
  rewrite (IH Hevs). by destruct e.
Qed.

Lemma failure_not_metadata evs e :
  forallb is_metadata_fetch evs = true → e ∈ evs → is_failure e = false.
Proof.
  rewrite forallb_forall. intros Hall Hin%list_elem_of_In. apply Hall in Hin.
  by destruct e.
Qed.

Lemma remote_turn_failure p rd b en tpre e tpost :
  remote_turn_events p rd b en (tpre ++ e :: tpost) → is_failure e = true → tpost = [].
Proof.
  intros HT He. inversion HT; subst;
    repeat (destruct tpre as [|? tpre]; simplify_eq/=; try done).
Qed.

Lemma local_turn_failure b en tpre e tpost :
  local_turn_events b en (tpre ++ e :: tpost) → is_failure e = true → tpost = [].
Proof.
  intros HT He. inversion HT; subst;
    repeat (destruct tpre as [|? tpre]; simplify_eq/=; try done).
Qed.

(** A turn that goes on has no successful load; the turn that is chosen
    has one, its last call; a turn that panics stops at [NewBackend]. *)
Lemma remote_turn_ends p rd b en evs :
  remote_turn_events p rd b en evs →
  match en with
  | Go_on => existsb is_loaded evs = false
  | Chosen => ∃ pre, evs = pre ++ [EvLoadDB b None] ∧ existsb is_loaded pre = false
  | Crash => ∃ pre, evs = pre ++ [EvNewBackend b None] ∧ existsb is_loaded pre = false
  end.
Proof.
  destruct 1; try done;
    first [by exists [] | by eexists [_; _] | by eexists [_; _; _; _]].
Qed.

Lemma local_turn_ends b en evs :
  local_turn_events b en evs →
  match en with
  | Go_on => existsb is_loaded evs = false
  | Chosen => ∃ pre, evs = pre ++ [EvLoadDB b None] ∧ existsb is_loaded pre = false
  | Crash => ∃ pre, evs = pre ++ [EvNewBackend b None] ∧ existsb is_loaded pre = false
  end.
Proof. destruct 1; try done; first [by exists [] | by eexists [_]]. Qed.

Variable T : string → turn_end → list event → Prop.
Hypothesis T_starts : ∀ b en evs, T b en evs → ∃ r tl, evs = EvNewBackend b r :: tl.
Hypothesis T_tried : ∀ b en evs, T b en evs → tried evs = [b].
Hypothesis T_failure :
  ∀ b en tpre e tpost, T b en (tpre ++ e :: tpost) → is_failure e = true → tpost = [].
Hypothesis T_ends :
  ∀ b en evs, T b en evs →
    match en with
    | Go_on => existsb is_loaded evs = false
    | Chosen => ∃ pre, evs = pre ++ [EvLoadDB b None] ∧ existsb is_loaded pre = false
    | Crash => ∃ pre, evs = pre ++ [EvNewBackend b None] ∧ existsb is_loaded pre = false
    end.

(** The calls of a loop by the way it ends: every name tried and no load
    successful; or the names tried up to the one whose successful load is
    the last call and the only successful one; or the names tried up to
    the one whose [NewBackend] is the last call. *)
Lemma loop_events_ends names o evs :
  loop_events T names o evs →
  match o with
  | Exhausted => tried evs = names ∧ existsb is_loaded evs = false
  | Selected =>
      ∃ pre b post evs0, names = pre ++ b :: post ∧ tried evs = pre ++ [b] ∧
                         evs = evs0 ++ [EvLoadDB b None] ∧ existsb is_loaded evs0 = false
  | Crashed =>
      ∃ pre b post evs0, names = pre ++ b :: post ∧ tried evs = pre ++ [b] ∧
                         evs = evs0 ++ [EvNewBackend b None] ∧
                         existsb is_loaded evs0 = false
  end.
Proof.
  induction 1 as [|b names o evs evs' HT HL IH|b names evs HT|b names evs HT].
  - done.
  - rewrite tried_app, (T_tried _ _ _ HT). pose proof (T_ends _ _ _ HT) as Hq.
    simpl in Hq. destruct o.
    + destruct IH as [-> Hl]. by rewrite existsb_app, Hq, Hl.
    + destruct IH as (pre & b' & post & evs0 & -> & -> & -> & Hl).
      exists (b :: pre), b', post, (evs ++ evs0).
      rewrite existsb_app, Hq, Hl. split_and!; try done. by rewrite app_assoc.
    + destruct IH as (pre & b' & post & evs0 & -> & -> & -> & Hl).
      exists (b :: pre), b', post, (evs ++ evs0).
      rewrite existsb_app, Hq, Hl. split_and!; try done. by rewrite app_assoc.
  - destruct (T_ends _ _ _ HT) as (pre & -> & Hl).
    exists [], b, names, pre. by rewrite (T_tried _ _ _ HT).
  - destruct (T_ends _ _ _ HT) as (pre & -> & Hl).
    exists [], b, names, pre. by rewrite (T_tried _ _ _ HT).
Qed.

Lemma selection_report_loop repo r evs0 levs o :
  events r = evs0 ++ levs → forallb is_metadata_fetch evs0 = true →
  loop_events T (Backends repo) o levs → setup_result repo o r →
  selection_report None repo r.
Proof.
  intros Hev Hmeta HL Hres. split.
  - pose proof (loop_events_ends _ _ _ HL) as Hends.
    pose proof (tried_metadata _ Hmeta) as Ht0.
    pose proof (loaded_metadata _ Hmeta) as Hl0.
    destruct o; simpl in Hends, Hres.
    + destruct Hends as [Ht Hl].
      assert (tried (events r) = Backends repo ∧ existsb is_loaded (events r) = false)
        as [Htr Hld] by (by rewrite Hev, tried_app, existsb_app, Ht0, Hl0, Ht, Hl).
      destruct Hres as [w' [Hr|Hr]]; rewrite Hr; simpl; split_and!; auto.
    + destruct Hends as (pre & b & post & l0 & Hn & Ht & -> & Hl).
      destruct Hres as (bname & ba & w' & Hr & Hbl & Hlast).
      rewrite Hev, !app_assoc, last_snoc in Hlast. injection Hlast as <-.
      assert (tried (events r) = pre ++ [b]) as Htr
        by (by rewrite Hev, tried_app, Ht0, Ht).
      rewrite Hr. simpl.
      exists pre, b, post, ba, (evs0 ++ l0).
      rewrite existsb_app, Hl0, Hl. split_and!; try done. by rewrite Hev, app_assoc.
    + destruct Hends as (pre & b & post & l0 & Hn & Ht & -> & Hl).
      destruct Hres as (bname & w' & Hr & Hbn & Hlast).
      rewrite Hev, !app_assoc, last_snoc in Hlast. injection Hlast as <-.
      assert (tried (events r) = pre ++ [b]) as Htr
        by (by rewrite Hev, tried_app, Ht0, Ht).
      rewrite Hr. simpl.
      exists pre, b, post, (evs0 ++ l0).
      rewrite existsb_app, Hl0, Hl. split_and!; try done. by rewrite Hev, app_assoc.
  - intros pre e post Heq He. rewrite Hev in Heq.
    assert (∃ lpre, levs = lpre ++ e :: post) as [lpre Hl].
    { apply app_eq_app in Heq as [l [[-> Heq]|[-> Heq]]]; [|by exists l].
      destruct l as [|e' l]; simpl in *; [by exists []|].
      injection Heq as Hee Hpost. subst e'.
      rewrite (failure_not_metadata _ e Hmeta) in He; [done|].
      apply elem_of_app; right; by left. }
    destruct (loop_events_turn T T_starts _ _ _ HL _ _ _ Hl)
      as (b & en & tpre & tpost & before & rest & _ & HT & _ & -> & Hrest & _).
    by rewrite (T_failure _ _ _ _ _ HT He).
Qed.
End Report.

Section Selection.
Context `{Registry}.
Import Repository.

(** C5.  In both modes a candidate that fails (unknown name, failed
    download, failed write of the cache file, failed load) is given up and
    the loop goes on with the next name: a failed call is followed by the
    call of [NewBackend] for the next candidate or ends the run.  What
    the run returns is never the error of a candidate: it is the error of
    a metadata step, returned before any candidate is tried, or, when the
    metadata steps succeed, "No valid backend found" after every name was
    tried and no load succeeded, or success at the first successful load,
    with the backend built for that name active and the names after it
    not tried (or the run panics on a factory that returns neither backend
    nor error). *)
Theorem candidate_failures_stay_in_the_loop repo w :
  selection_report (remote_metadata_error repo w) repo (setupBackendFromRemote repo w) ∧
  selection_report (local_metadata_error repo w) repo (setupBackendFromLocal repo w).
Proof.
  split.
  - pose proof (setupBackendFromRemote_steps repo w) as Hs. cbv zeta in Hs.
    destruct (remote_metadata_error repo w) as [err|].
    + destruct Hs as (w' & Hr & Hmeta).
      split; [exists w'; split; [done|by apply tried_metadata]|].
      intros pre e post Heq He.
      rewrite (failure_not_metadata _ e Hmeta) in He; [done|].
      rewrite Heq. apply elem_of_app; right; by left.
    + destruct Hs as (rd & w1 & evs0 & evs & o & _ & Hev & Hmeta & HL & Hres).
      by apply (selection_report_loop (remote_turn_events (LocalRepoMdXml repo) rd)
                  (remote_turn_starts _ _) (remote_turn_tried _ _)
                  (remote_turn_failure _ _) (remote_turn_ends _ _) repo _ evs0 evs o).
  - pose proof (setupBackendFromLocal_steps repo w) as Hs. cbv zeta in Hs.
    destruct (local_metadata_error repo w) as [err|].
    + destruct Hs as (w' & Hr & Hevs).
      assert (forallb is_metadata_fetch (events (setupBackendFromLocal repo w)) = true)
        as Hmeta by (by destruct Hevs as [->| ->]).
      split; [exists w'; split; [done|by apply tried_metadata]|].
      intros pre e post Heq He.
      rewrite (failure_not_metadata _ e Hmeta) in He; [done|].
      rewrite Heq. apply elem_of_app; right; by left.
    + destruct Hs as (evs0 & evs & o & Hev & Hevs0 & HL & Hres).
      apply (selection_report_loop local_turn_events local_turn_starts local_turn_tried
               local_turn_failure local_turn_ends repo _ evs0 evs o); try done.
      by destruct Hevs0 as [->| ->].
Qed.
End Selection.

(** *** The state of the repository after a synchronisation *)

Section Invariant.
Context `{Registry}.
Import Repository.

Lemma sync_invariant_loop (T : string → turn_end → list event → Prop) repo r evs0 levs o :
  (∀ b en evs, T b en evs → tried evs = [b]) →
  (∀ b en evs, T b en evs →
     match en with
     | Go_on => existsb is_loaded evs = false
     | Chosen => ∃ pre, evs = pre ++ [EvLoadDB b None] ∧ existsb is_loaded pre = false
     | Crash => ∃ pre, evs = pre ++ [EvNewBackend b None] ∧ existsb is_loaded pre = false
     end) →
  Backend repo = None →
  events r = evs0 ++ levs → loop_events T (Backends repo) o levs →
  setup_result repo o r → sync_invariant repo r.
Proof.
  intros T_tried T_ends Hb Hev HL Hres.
  pose proof (loop_events_ends T T_tried T_ends _ _ _ HL) as Hends.
  destruct o; simpl in Hres, Hends.
  - by destruct Hres as [w' [-> | ->]].
  - destruct Hends as (pre & b & post & l0 & Hn & _ & -> & _).
    destruct Hres as (bname & ba & w' & Hr & Hbl & Hlast). rewrite Hr. simpl.
    exists bname, ba. split_and!; try done.
    rewrite Hev, !app_assoc, last_snoc in Hlast. injection Hlast as <-.
    rewrite Hn. apply elem_of_app; right; by left.
  - by destruct Hres as (bname & w' & -> & _).
Qed.

Lemma sync_invariant_remote repo w :
  Backend repo = None → sync_invariant repo (setupBackendFromRemote repo w).
Proof.
  intros Hb.
  destruct (setupBackendFromRemote_report repo w)
    as [(err & w' & -> & _)|(rd & w1 & evs0 & evs & o & _ & Hev & _ & HL & Hres)]; [done|].
  apply (sync_invariant_loop (remote_turn_events (LocalRepoMdXml repo) rd)
           repo _ evs0 evs o); try done.
  - apply remote_turn_tried.
  - apply remote_turn_ends.
Qed.

Lemma sync_invariant_local repo w :
  Backend repo = None → sync_invariant repo (setupBackendFromLocal repo w).
Proof.
  intros Hb.
  destruct (setupBackendFromLocal_report repo w)
    as [(err & w' & -> & _)|(evs0 & evs & o & Hev & _ & HL & Hres)]; [done|].
  apply (sync_invariant_loop local_turn_events repo _ evs0 evs o); try done.
  - apply local_turn_tried.
  - apply local_turn_ends.
Qed.


(** [NewRepository] starts a synchronisation on a struct without backend,
    and hands out a repository only when the synchronisation succeeded. *)
Lemma NewRepository_sync name url cachedir backends checkForUpdates w :
  match NewRepository name url cachedir backends true checkForUpdates w with
  | Ok (Some repo', None) w' evs =>
      ∃ b w0, Backend repo' = Some b ∧ Backend.LoadDB b w0 = (w', None)
  | Ok (Some _, Some _) _ _ => False
  | Ok (None, err) _ _ => err ≠ None
  | Panic _ _ => True
  end.
Proof.
  unfold NewRepository. exec.
  destruct (os_MkdirAll cachedir w) as [w1 [err|]]; exec; [done|].
  set (repo := Repository.mk _ _ _ _ _ _ _ _).
  pose proof (sync_invariant_remote repo w1 eq_refl) as Hr.
  pose proof (sync_invariant_local repo w1 eq_refl) as Hl.
  unfold bind.
  destruct checkForUpdates.
  - destruct (setupBackendFromRemote repo w1) as [[repo' [err|]] w' evs|]; simpl in *; try done.
    destruct Hr as (bname & b & _ & ? & (f & r0 & w0 & w2 & w3 & _ & _ & _ & ?) & _).
    by exists b, w3.
  - destruct (setupBackendFromLocal repo w1) as [[repo' [err|]] w' evs|]; simpl in *; try done.
    destruct Hl as (bname & b & _ & ? & (f & r0 & w0 & w2 & w3 & _ & _ & _ & ?) & _).
    by exists b, w3.
Qed.
End Invariant.

Section LocalOnly.
Context `{Registry}.
Import Repository.

Lemma local_loop_steps names o evs :
  loop_events local_turn_events names o evs → forallb is_local_step evs = true.
Proof.
  induction 1 as [|b names o evs evs' HT HL IH|b names evs HT|b names evs HT];
    rewrite ?forallb_app, ?IH, ?andb_true_r; try done; by destruct HT.
Qed.

Lemma local_steps_quiet evs :
  forallb is_local_step evs = true →
  existsb is_network evs = false ∧ downloads evs = false ∧ writes evs = false.
Proof.
  unfold downloads, writes.
  induction evs as [|e evs IH]; [done|]. simpl. intros [He Hevs]%andb_true_iff.
  destruct (IH Hevs) as (-> & -> & ->). by destruct e.
Qed.

(** C9.  Whatever the repository and the state of the world, the calls
    of local-only synchronisation are reads of the cached document, calls
    of [NewBackend] and calls of [LoadDB]: no network request, no
    [GetLatestDB], no write of the cache file. *)
Theorem local_mode_stays_local repo w :
  let evs := events (setupBackendFromLocal repo w) in
  forallb is_local_step evs = true ∧
  existsb is_network evs = false ∧ downloads evs = false ∧ writes evs = false.
Proof.
  simpl. assert (forallb is_local_step (events (setupBackendFromLocal repo w)) = true) as Hs.
  { destruct (setupBackendFromLocal_report repo w)
      as [(err & w' & _ & [-> | ->])|(evs0 & evs & o & -> & Hevs0 & HL & _)]; try done.
    rewrite forallb_app, (local_loop_steps _ _ _ HL), andb_true_r.
    by destruct Hevs0 as [->| ->]. }
  split; [done|]. by apply local_steps_quiet.
Qed.
End LocalOnly.

(** *** The cache file *)

Section CacheFile.
Context `{Registry}.
Import Repository.

Lemma event_in_loop evs0 levs pre e post :
  evs0 ++ levs = pre ++ e :: post → forallb is_metadata_fetch evs0 = true →
  is_metadata_fetch e = false →
  ∃ lpre, levs = lpre ++ e :: post ∧ pre = evs0 ++ lpre.
Proof.
  intros Heq Hmeta He.
  apply app_eq_app in Heq as [l [[-> Heq]|[-> Heq]]]; [|by exists l].
  destruct l as [|e' l]; simpl in *.
  { exists []. by rewrite !app_nil_r. }
  injection Heq as Hee Hpost. subst e'.
  rewrite forallb_app in Hmeta. simpl in Hmeta. rewrite He in Hmeta.
  by rewrite andb_false_r in Hmeta.
Qed.

Lemma remote_turn_write p rd b en tpre e tpost :
  remote_turn_events p rd b en (tpre ++ e :: tpost) → is_write e = true →
  ∃ err url tpre', e = EvWriteFile p rd err ∧ tpre = tpre' ++ [EvGetLatestDB b url None].
Proof.
  intros HT He. inversion HT; subst;
    repeat (destruct tpre as [|? tpre]; simplify_eq/=; try done);
    by eexists _, _, [_; _].
Qed.

Lemma remote_turn_fetched p rd b en tpre e tpost :
  remote_turn_events p rd b en (tpre ++ e :: tpost) → is_fetched e = true →
  ∃ err tl, tpost = EvWriteFile p rd err :: tl.
Proof.
  intros HT He. inversion HT; subst;
    repeat (destruct tpre as [|? tpre]; simplify_eq/=; try done);
    by eexists _, _.
Qed.

Lemma remote_turn_writes p rd b en evs :
  remote_turn_events p rd b en evs → writes evs = existsb is_fetched evs.
Proof. by destruct 1. Qed.

Lemma remote_loop_writes p rd names o evs :
  loop_events (remote_turn_events p rd) names o evs → writes evs = existsb is_fetched evs.
Proof.
  induction 1 as [|b names o evs evs' HT HL IH|b names evs HT|b names evs HT];
    try done; try by apply remote_turn_writes in HT.
  apply remote_turn_writes in HT. unfold writes in *.
  by rewrite !existsb_app, IH, HT.
Qed.

Lemma metadata_quiet evs :
  forallb is_metadata_fetch evs = true →
  writes evs = false ∧ existsb is_fetched evs = false.
Proof.
  unfold writes.
  induction evs as [|e evs IH]; [done|]. simpl. intros [He Hevs]%andb_true_iff.
  destruct (IH Hevs) as (-> & ->). by destruct e.
Qed.

Lemma remote_writes_fetched repo w :
  let evs := events (setupBackendFromRemote repo w) in
  writes evs = existsb is_fetched evs.
Proof.
  simpl.
  destruct (setupBackendFromRemote_report repo w)
    as [(err & w' & _ & Hmeta)|(rd & w1 & evs0 & evs & o & _ & -> & Hmeta & HL & _)].
  - by destruct (metadata_quiet _ Hmeta) as [-> ->].
  - destruct (metadata_quiet _ Hmeta) as [Hw Hf].
    apply remote_loop_writes in HL. unfold writes in *.
    by rewrite !existsb_app, Hw, Hf, HL.
Qed.

(** C2, as the code has it.  In remote-checking synchronisation the
    cache file is written only right after a candidate's [GetLatestDB]
    returned no error, with the bytes of the remote document, and it is
    written after every such download, before the candidate is loaded;
    when the load then fails the loop goes on to the next candidate (or
    ends) and nothing is written back. *)
Theorem cache_written_after_each_download repo w :
  ∀ pre e post,
    events (setupBackendFromRemote repo w) = pre ++ e :: post →
    (is_write e = true →
       ∃ rd w1 err b url pre',
         remoteMetadata repo w = Ok (rd, None) w1 [EvHttpGet (RepoMdUrl repo)] ∧
         e = EvWriteFile (LocalRepoMdXml repo) rd err ∧
         pre = pre' ++ [EvGetLatestDB b url None]) ∧
    (is_fetched e = true →
       ∃ rd w1 err tl,
         remoteMetadata repo w = Ok (rd, None) w1 [EvHttpGet (RepoMdUrl repo)] ∧
         post = EvWriteFile (LocalRepoMdXml repo) rd err :: tl) ∧
    (∀ b err, e = EvLoadDB b (Some err) →
       post = [] ∨ ∃ b' r' tl, post = EvNewBackend b' r' :: tl).
Proof.
  intros pre e post Heq.
  destruct (setupBackendFromRemote_report repo w)
    as [(err & w' & _ & Hmeta)|(rd & w1 & evs0 & evs & o & Hrm & Hev & Hmeta & HL & _)].
  { assert (is_metadata_fetch e = true) as He.
    { rewrite forallb_forall in Hmeta. apply Hmeta, list_elem_of_In.
      rewrite Heq. apply elem_of_app; right; by left. }
    split_and!; [by destruct e|by destruct e as [| | | | | |? []]|by intros ?? ->]. }
  rewrite Hev in Heq.
  assert (is_metadata_fetch e = false →
          ∃ b en tpre tpost before rest,
            remote_turn_events (LocalRepoMdXml repo) rd b en (tpre ++ e :: tpost) ∧
            pre = (evs0 ++ before) ++ tpre ∧ post = tpost ++ rest ∧
            (rest = [] ∨ ∃ b' r tl, rest = EvNewBackend b' r :: tl)) as Hturn.
  { intros He. destruct (event_in_loop _ _ _ _ _ Heq Hmeta He) as (lpre & Hl & ->).
    destruct (loop_events_turn _ (remote_turn_starts _ _) _ _ _ HL _ _ _ Hl)
      as (b & en & tpre & tpost & before & rest & _ & HT & -> & -> & Hrest & _).
    exists b, en, tpre, tpost, before, rest. by rewrite app_assoc. }
  split_and!.
  - intros He. destruct Hturn as (b & en & tpre & tpost & before & rest & HT & -> & -> & _);
      [by destruct e|].
    destruct (remote_turn_write _ _ _ _ _ _ _ HT He) as (err & url & tpre' & -> & ->).
    exists rd, w1, err, b, url, ((evs0 ++ before) ++ tpre'). by rewrite app_assoc.
  - intros He. destruct Hturn as (b & en & tpre & tpost & before & rest & HT & -> & -> & _);
      [by destruct e|].
    destruct (remote_turn_fetched _ _ _ _ _ _ _ HT He) as (err & tl & ->).
    by exists rd, w1, err, (tl ++ rest).
  - intros b err ->.
    destruct Hturn as (b' & en & tpre & tpost & before & rest & HT & -> & -> & Hrest); [done|].
    by rewrite (remote_turn_failure _ _ _ _ _ _ _ HT eq_refl).
Qed.
End CacheFile.

(** *** The staleness test *)

Section Staleness.
Context `{Registry}.
Import Repository.

Lemma After_irrefl (t : GoTime.Time) : GoTime.After t t = false.
Proof.
  unfold GoTime.After. by rewrite !Z.ltb_irrefl, andb_false_r.
Qed.

Lemma After_spec (t u : GoTime.Time) :
  GoTime.After t u = true ↔
  GoTime.sec u < GoTime.sec t ∨ GoTime.sec t = GoTime.sec u ∧ GoTime.nsec u < GoTime.nsec t.
Proof.
  unfold GoTime.After.
  rewrite orb_true_iff, andb_true_iff, !Z.ltb_lt, Z.eqb_eq. done.
Qed.

(** [time.Unix(s, n)] against the zero instant: later when the count of
    seconds since year 1 is positive and fits [int64]; not later when it
    is negative, or wraps around to a negative count. *)
Lemma Unix_after_zero (s n : Z) :
  - GoTime.unixToInternal < s < 2 ^ 63 - GoTime.unixToInternal → 0 <= n < 1000000000 →
  GoTime.After (GoTime.Unix s n) GoTime.zero = true.
Proof.
  intros Hs Hn. unfold GoTime.Unix.
  replace (n <? 0) with false by (symmetry; apply Z.ltb_ge; lia).
  replace (1000000000 <=? n) with false by (symmetry; apply Z.leb_gt; lia).
  simpl. apply After_spec. left. simpl.
  unfold wrap64, GoTime.unixToInternal in *.
  change ((1969 * 365 + 1969 / 4 - 1969 / 100 + 1969 / 400) * 86400) with 62135596800 in *.
  rewrite Z.mod_small; lia.
Qed.

Lemma Unix_not_after_zero (s n : Z) :
  - 2 ^ 63 <= s < 2 ^ 63 →
  s < - GoTime.unixToInternal ∨ 2 ^ 63 - GoTime.unixToInternal <= s →
  0 <= n < 1000000000 →
  GoTime.After (GoTime.Unix s n) GoTime.zero = false.
Proof.
  intros Hr Hs Hn. unfold GoTime.Unix.
  replace (n <? 0) with false by (symmetry; apply Z.ltb_ge; lia).
  replace (1000000000 <=? n) with false by (symmetry; apply Z.leb_gt; lia).
  simpl. unfold GoTime.After. simpl.
  assert (wrap64 (s + GoTime.unixToInternal) < 0) as Hneg.
  { unfold wrap64, GoTime.unixToInternal in *.
    change ((1969 * 365 + 1969 / 4 - 1969 / 100 + 1969 / 400) * 86400)
      with 62135596800 in *.
    destruct Hs as [Hs|Hs].
    - rewrite Z.mod_small; lia.
    - replace (s + 62135596800 + 2 ^ 63) with (s + 62135596800 - 2 ^ 63 + 1 * 2 ^ 64) by lia.
      rewrite Z.mod_add by lia. rewrite Z.mod_small; lia. }
  replace (0 <? wrap64 (s + GoTime.unixToInternal)) with false
    by (symmetry; apply Z.ltb_ge; lia).
  replace (wrap64 (s + GoTime.unixToInternal) =? 0) with false
    by (symmetry; apply Z.eqb_neq; lia).
  done.
Qed.

(** The calls of a turn for a candidate that the registry built and the
    remote metadata offers. *)
Lemma remote_turn_offered rd rmd lmd bname repo backend w b w1 evs0 rrepomd :
  NewBackend bname repo w = Ok (Some b, None) w1 evs0 →
  map_index rmd (Backend.YumDataType b) = (rrepomd, true) →
  let h := Backend.HasDB b w1 in
  let lrepomd := (map_index lmd (Backend.YumDataType b)).1 in
  let evs := events (setupBackendFromRemote_turn rd rmd lmd bname (repo, backend) w) in
  if needs_update h rrepomd lrepomd then
    ∃ err tl, evs = EvNewBackend bname None :: EvHasDB bname h ::
                    EvGetLatestDB bname (RepoUrl repo +:+ "/" +:+ Location rrepomd) err :: tl
  else
    evs = [EvNewBackend bname None; EvHasDB bname true; EvLoadDB bname (Backend.LoadDB b w1).2].
Proof.
  intros HNew Hr. unfold setupBackendFromRemote_turn.
  destruct (NewBackend_returns bname repo w) as (r & w' & Hnb).
  rewrite Hnb in HNew. simplify_eq.
  rewrite (bind_Ok _ _ _ _ _ _ Hnb). exec. rewrite Hr. simpl.
  destruct (map_index lmd (Backend.YumDataType b)) as [l okl]. exec.
  destruct (needs_update _ _ _) eqn:Hn; exec.
  - by eexists _, _.
  - rewrite (load_candidate_run _ _ _ b) by done. simpl.
    unfold needs_update in Hn. by destruct (Backend.HasDB b w1).
Qed.

Lemma remote_turn_downloads rd rmd lmd bname repo backend w b w1 evs0 rrepomd :
  NewBackend bname repo w = Ok (Some b, None) w1 evs0 →
  map_index rmd (Backend.YumDataType b) = (rrepomd, true) →
  downloads (events (setupBackendFromRemote_turn rd rmd lmd bname (repo, backend) w))
  = needs_update (Backend.HasDB b w1) rrepomd (map_index lmd (Backend.YumDataType b)).1.
Proof.
  intros HNew Hr.
  pose proof (remote_turn_offered rd rmd lmd bname repo backend w b w1 evs0 rrepomd HNew Hr)
    as Hev. cbv zeta in Hev.
  destruct (needs_update _ _ _).
  - by destruct Hev as (err & tl & ->).
  - by rewrite Hev.
Qed.

(** C1, as the code has it.  For a candidate that the remote metadata
    offers, a download is performed exactly when [HasDB()] is false or the
    remote timestamp is strictly later than the local one, where a data
    type without local record counts with the zero instant: with a
    database present and no local record the download happens exactly when
    the remote timestamp is later than the zero instant.  That is so for
    every remote instant [time.Unix(s, n)] whose count of seconds since
    year 1 is positive and fits [int64], which covers every date from
    year 1 on, 1970 and after included, up to that bound; for an [int64]
    count [s] outside that range the instant lies before year 1, or wraps
    around to before it, and the missing record forces nothing. *)
Theorem download_iff_stale rd rmd lmd bname repo backend w b w1 evs0 rrepomd :
  NewBackend bname repo w = Ok (Some b, None) w1 evs0 →
  map_index rmd (Backend.YumDataType b) = (rrepomd, true) →
  let lrepomd := map_index lmd (Backend.YumDataType b) in
  let evs := events (setupBackendFromRemote_turn rd rmd lmd bname (repo, backend) w) in
  (downloads evs = true ↔
     Backend.HasDB b w1 = false ∨
     GoTime.After (Timestamp rrepomd) (Timestamp lrepomd.1) = true) ∧
  (lrepomd.2 = false → Backend.HasDB b w1 = true →
     (downloads evs = true ↔ GoTime.After (Timestamp rrepomd) GoTime.zero = true)) ∧
  (lrepomd.2 = false →
     ∀ s n, - GoTime.unixToInternal < s < 2 ^ 63 - GoTime.unixToInternal →
            0 <= n < 1000000000 →
            Timestamp rrepomd = GoTime.Unix s n → downloads evs = true) ∧
  (lrepomd.2 = false → Backend.HasDB b w1 = true →
     ∀ s n, - 2 ^ 63 <= s < 2 ^ 63 →
            s < - GoTime.unixToInternal ∨ 2 ^ 63 - GoTime.unixToInternal <= s →
            0 <= n < 1000000000 →
            Timestamp rrepomd = GoTime.Unix s n → downloads evs = false).
Proof.
  intros HNew Hr lr evs. subst lr evs.
  rewrite (remote_turn_downloads rd rmd lmd bname repo backend w b w1 evs0 rrepomd HNew Hr).
  unfold needs_update. split_and!.
  - rewrite orb_true_iff, negb_true_iff. done.
  - intros Hl ->. simpl. unfold map_index in *.
    by destruct (lmd ≫= _).
  - intros Hl s n Hs Hn Hts. unfold map_index in *.
    destruct (lmd ≫= _); [done|]. simpl.
    by rewrite Hts, Unix_after_zero, orb_true_r.
  - intros Hl -> s n Hr' Hs Hn Hts. unfold map_index in *.
    destruct (lmd ≫= _); [done|]. simpl.
    by rewrite Hts, Unix_not_after_zero.
Qed.

(** C6.  For a candidate with a database ([HasDB()] true) and a local
    record, no download is performed when the remote timestamp equals the
    local one: a download is performed only when the remote instant is
    strictly later. *)
Theorem no_download_on_equal_timestamps rd rmd lmd bname repo backend w b w1 evs0
    rrepomd lrepomd :
  NewBackend bname repo w = Ok (Some b, None) w1 evs0 →
  map_index rmd (Backend.YumDataType b) = (rrepomd, true) →
  map_index lmd (Backend.YumDataType b) = (lrepomd, true) →
  Backend.HasDB b w1 = true →
  let evs := events (setupBackendFromRemote_turn rd rmd lmd bname (repo, backend) w) in
  (Timestamp rrepomd = Timestamp lrepomd → downloads evs = false) ∧
  (downloads evs = true ↔
     GoTime.sec (Timestamp lrepomd) < GoTime.sec (Timestamp rrepomd) ∨
     GoTime.sec (Timestamp rrepomd) = GoTime.sec (Timestamp lrepomd) ∧
     GoTime.nsec (Timestamp lrepomd) < GoTime.nsec (Timestamp rrepomd)).
Proof.
  intros HNew Hr Hl Hh evs. subst evs.
  rewrite (remote_turn_downloads rd rmd lmd bname repo backend w b w1 evs0 rrepomd HNew Hr).
  rewrite Hl, Hh. unfold needs_update. simpl. split.
  - intros ->. apply After_irrefl.
  - apply After_spec.
Qed.

(** C10, as the code has it.  The turn of a candidate that needs no
    update consists of [NewBackend], [HasDB] and [LoadDB]: it does not
    download and does not write the cache file.  In a run that such a
    candidate wins, the cache file is written exactly when the download of
    an earlier candidate succeeded, and so not at all when none did. *)
Theorem kept_database_leaves_cache_alone rd rmd lmd bname repo backend w b w1 evs0 rrepomd :
  NewBackend bname repo w = Ok (Some b, None) w1 evs0 →
  map_index rmd (Backend.YumDataType b) = (rrepomd, true) →
  needs_update (Backend.HasDB b w1) rrepomd
               (map_index lmd (Backend.YumDataType b)).1 = false →
  events (setupBackendFromRemote_turn rd rmd lmd bname (repo, backend) w)
  = [EvNewBackend bname None; EvHasDB bname true; EvLoadDB bname (Backend.LoadDB b w1).2] ∧
  ∀ repo0 w0 pre,
    events (setupBackendFromRemote repo0 w0)
    = pre ++ [EvNewBackend bname None; EvHasDB bname true; EvLoadDB bname None] →
    writes (events (setupBackendFromRemote repo0 w0)) = existsb is_fetched pre.
Proof.
  intros HNew Hr Hn. split.
  - pose proof (remote_turn_offered rd rmd lmd bname repo backend w b w1 evs0 rrepomd HNew Hr)
      as Hev. cbv zeta in Hev. by rewrite Hn in Hev.
  - intros repo0 w0 pre Hev. rewrite remote_writes_fetched, Hev, existsb_app. simpl.
    apply orb_false_r.
Qed.
End Staleness.

(** *** Queries and the codec on empty input *)

Section Queries.
Context `{Registry}.
Import Repository.

(** C3, as the code has it.  The three query methods call the method of
    the same name on the [Backend] field: without an active backend the
    call is on a nil interface and panics, with one it returns what the
    backend returns. *)
Theorem queries_forward_to_the_backend repo :
  (Backend repo = None →
   ∀ name version release requirement w,
     FindLatestMatchingName repo name version release w = Panic w [] ∧
     FindLatestMatchingRequire repo requirement w = Panic w [] ∧
     GetPackages repo w = Panic w []) ∧
  (∀ b, Backend repo = Some b →
   ∀ name version release requirement w,
     FindLatestMatchingName repo name version release w
     = Ok (Backend.FindLatestMatchingName b name version release w).2
          (Backend.FindLatestMatchingName b name version release w).1 [] ∧
     FindLatestMatchingRequire repo requirement w
     = Ok (Backend.FindLatestMatchingRequire b requirement w).2
          (Backend.FindLatestMatchingRequire b requirement w).1 [] ∧
     GetPackages repo w
     = Ok (Backend.GetPackages b w).2 (Backend.GetPackages b w).1 []).
Proof.
  unfold FindLatestMatchingName, FindLatestMatchingRequire, GetPackages.
  split.
  - intros -> *. by rewrite !bind_nil.
  - intros b -> *. by rewrite !bind_deref.
Qed.

(** C8.  On a zero-length input [checkRepoMD] returns the nil map, which
    has no entry, and no error; [localMetadata] returns no bytes and no
    error when the cached file does not exist, and also when it exists
    and holds no bytes; in both cases [checkRepoMD] on what it returned
    gives the nil map. *)
Theorem empty_metadata_is_an_empty_mapping repo w :
  (∀ data, length data = 0%nat → checkRepoMD repo data = (None, None)) ∧
  (map_len None = 0%nat ∧ ∀ k, map_index None k = (RepoMD_zero, false)) ∧
  (path_exists (LocalRepoMdXml repo) w = false →
   localMetadata repo w = Ok ([], None) w [] ∧ checkRepoMD repo [] = (None, None)) ∧
  (∀ f w1 w2,
     path_exists (LocalRepoMdXml repo) w = true →
     os_Open (LocalRepoMdXml repo) w = (w1, inl f) →
     io_Copy f w1 = (w2, ([], None)) →
     localMetadata repo w = Ok ([], None) (Close f w2) [EvOpen (LocalRepoMdXml repo)] ∧
     checkRepoMD repo [] = (None, None)).
Proof.
  split_and!.
  - intros data Hlen. unfold checkRepoMD. by rewrite Hlen.
  - done.
  - done.
  - intros Hp. split; [|done]. unfold localMetadata. exec. by rewrite Hp.
  - intros f w1 w2 Hp Ho Hc. split; [|done].
    unfold localMetadata. exec. rewrite Hp. exec. rewrite Ho. exec. rewrite Hc. by exec.
Qed.
End Queries.

(** *** The timestamp of a record *)

Section Float64.

Lemma digits2_pos_bounds (p : positive) :
  2 ^ (Zpos (digits2_pos p) - 1) <= Zpos p < 2 ^ Zpos (digits2_pos p).
Proof.
  induction p as [p IH|p IH|]; simpl digits2_pos; [| |simpl; lia].
  - rewrite Pos2Z.inj_succ, Z.pow_succ_r by lia.
    replace (Z.succ (Zpos (digits2_pos p)) - 1) with (Z.succ (Zpos (digits2_pos p) - 1)) by lia.
    rewrite Z.pow_succ_r by lia. lia.
  - rewrite Pos2Z.inj_succ, Z.pow_succ_r by lia.
    replace (Z.succ (Zpos (digits2_pos p)) - 1) with (Z.succ (Zpos (digits2_pos p) - 1)) by lia.
    rewrite Z.pow_succ_r by lia. lia.
Qed.

Lemma digits2_pos_le (p : positive) (n : Z) :
  Zpos p < 2 ^ n → Zpos (digits2_pos p) <= n.
Proof.
  intros Hp. destruct (digits2_pos_bounds p) as [Hlo _].
  destruct (Z.le_gt_cases (Zpos (digits2_pos p)) n) as [|Hgt]; [done|].
  assert (2 ^ n <= 2 ^ (Zpos (digits2_pos p) - 1)); [|lia].
  assert (0 <= n ∨ n < 0) as [Hn|Hn] by lia.
  - apply Z.pow_le_mono_r; lia.
  - rewrite Z.pow_neg_r in Hp by done. lia.
Qed.

Lemma iter_xO_Z (p k : positive) : Zpos (Pos.iter xO p k) = Zpos p * 2 ^ Zpos k.
Proof.
  induction k as [|k IH] using Pos.peano_ind.
  - simpl. lia.
  - rewrite Pos.iter_succ, Pos2Z.inj_succ, Z.pow_succ_r by lia.
    rewrite Pos2Z.inj_xO, IH. lia.
Qed.

Lemma iter_xO_digits (p k : positive) :
  digits2_pos (Pos.iter xO p k) = (digits2_pos p + k)%positive.
Proof.
  induction k as [|k IH] using Pos.peano_ind.
  - simpl. lia.
  - rewrite Pos.iter_succ. simpl. rewrite IH. lia.
Qed.

(** The float of a non-zero integer below [2^53] in magnitude: the integer
    shifted to 53 digits, with the exponent that undoes the shift. *)
Lemma binary_round_small (s : bool) (p : positive) :
  Zpos p < 2 ^ 53 →
  ∃ m k, 0 <= k ∧ Zpos m = Zpos p * 2 ^ k ∧
         binary_round F64.prec F64.emax s p 0 = S754_finite s m (- k).
Proof.
  intros Hp. pose proof (digits2_pos_le p 53 Hp) as Hd.
  unfold binary_round, fexp, emin, F64.prec, F64.emax.
  rewrite Z.add_0_r.
  replace (Z.max (Zpos (digits2_pos p) - 53) (3 - 1024 - 53))
    with (Zpos (digits2_pos p) - 53) by lia.
  unfold shl_align. rewrite Z.sub_0_r.
  destruct (Zpos (digits2_pos p) - 53) as [|q|q] eqn:Hq; [|lia|].
  - exists p, 0. split; [lia|]. split; [lia|].
    unfold binary_round_aux, shr_fexp, fexp, emin. simpl Zdigits2.
    replace (Z.max (Zpos (digits2_pos p) + 0 - 53) (3 - 1024 - 53) - 0) with 0 by lia.
    simpl. replace (Z.max (Zpos (digits2_pos p) + 0 - 53) (3 - 1024 - 53) - 0) with 0 by lia.
    done.
  - exists (Pos.iter xO p q), (Zpos q). split; [lia|]. split; [apply iter_xO_Z|].
    unfold binary_round_aux, shr_fexp, fexp, emin. simpl Zdigits2.
    rewrite iter_xO_digits, Pos2Z.inj_add.
    replace (Z.max (Zpos (digits2_pos p) + Zpos q + Zneg q - 53) (3 - 1024 - 53) - Zneg q)
      with 0 by lia.
    simpl. rewrite iter_xO_digits, Pos2Z.inj_add.
    replace (Z.max (Zpos (digits2_pos p) + Zpos q + Zneg q - 53) (3 - 1024 - 53) - Zneg q)
      with 0 by lia.
    simpl. destruct (Z.leb_spec (Zneg q) 971); [done|lia].
Qed.

(** [int64(x)] on a finite number that fits. *)
Lemma to_int64_finite (s : bool) (m : positive) (e : Z) :
  let a := if 0 <=? e then Z.shiftl (Zpos m) e else Z.shiftr (Zpos m) (- e) in
  let v := if s then - a else a in
  - 2 ^ 63 <= v < 2 ^ 63 → F64.to_int64 (S754_finite s m e) = v.
Proof.
  intros a v Hv. unfold F64.to_int64. fold a. fold v.
  destruct (Z.leb_spec (- 2 ^ 63) v); [|lia].
  destruct (Z.ltb_spec v (2 ^ 63)); [done|lia].
Qed.

(** Converting an integer below [2^53] in magnitude to [float64] and
    back gives the integer. *)
Lemma to_int64_of_int64 (z : Z) :
  - 2 ^ 53 < z < 2 ^ 53 → F64.to_int64 (F64.of_int64 z) = z.
Proof.
  intros Hz. unfold F64.of_int64, binary_normalize.
  assert (∀ s p, Zpos p < 2 ^ 53 →
            F64.to_int64 (binary_round F64.prec F64.emax s p 0)
            = if s then - Zpos p else Zpos p) as Hround.
  { intros s p Hp.
    destruct (binary_round_small s p Hp) as (m & k & Hk & Hm & ->).
    assert ((if 0 <=? - k then Z.shiftl (Zpos m) (- k) else Z.shiftr (Zpos m) (- - k))
            = Zpos p) as Ha.
    { destruct (Z.leb_spec 0 (- k)).
      - assert (k = 0) as -> by lia. rewrite Z.shiftl_0_r, Hm. lia.
      - rewrite Z.opp_involutive, Z.shiftr_div_pow2, Hm by done.
        apply Z.div_mul. apply Z.pow_nonzero; lia. }
    rewrite to_int64_finite; rewrite Ha; [done|].
    destruct s; lia. }
  destruct z as [|p|p]; [done| |].
  - apply (Hround false). lia.
  - apply (Hround true). lia.
Qed.
Lemma shl_align_fst (m : positive) (e ez : Z) :
  ez <= e → Zpos (fst (shl_align m e ez)) = Zpos m * 2 ^ (e - ez).
Proof.
  intros He. unfold shl_align.
  destruct (ez - e) as [|q|q] eqn:Hq; simpl; [|lia|].
  - replace (e - ez) with 0 by lia. lia.
  - rewrite iter_xO_Z. f_equal. f_equal. lia.
Qed.

(** Rounding a number of at most 53 digits whose exponent is in range
    changes nothing: the mantissa is shifted left, the exponent lowered. *)
Lemma binary_round_exact (s : bool) (p : positive) (e : Z) :
  Zpos p < 2 ^ 53 → - 1074 <= e <= 971 →
  ∃ m t, 0 <= t ∧ Zpos m = Zpos p * 2 ^ t ∧ Zpos m < 2 ^ 53 ∧
         binary_round F64.prec F64.emax s p e = S754_finite s m (e - t).
Proof.
  intros Hp He. pose proof (digits2_pos_le p 53 Hp) as Hd.
  unfold binary_round, fexp, emin, F64.prec, F64.emax.
  set (fe := Z.max (Zpos (digits2_pos p) + e - 53) (3 - 1024 - 53)).
  assert (fe <= e) as Hfe by (unfold fe; lia).
  unfold shl_align.
  destruct (fe - e) as [|q|q] eqn:Hq; [|lia|].
  - exists p, 0. split; [lia|]. split; [lia|]. split; [done|]. rewrite Z.sub_0_r.
    unfold binary_round_aux, shr_fexp, fexp, emin. simpl Zdigits2.
    fold fe. rewrite Hq. simpl. fold fe. rewrite Hq. simpl.
    destruct (Z.leb_spec e (1024 - 53)); [done|lia].
  - exists (Pos.iter xO p q), (Zpos q). split; [lia|]. split; [apply iter_xO_Z|].
    split.
    { destruct (digits2_pos_bounds (Pos.iter xO p q)) as [_ Hhi].
      eapply Z.lt_le_trans; [exact Hhi|]. rewrite iter_xO_digits, Pos2Z.inj_add.
      apply Z.pow_le_mono_r; unfold fe in *; lia. }
    replace (e - Zpos q) with fe by lia.
    unfold binary_round_aux, shr_fexp, fexp, emin. simpl Zdigits2.
    rewrite iter_xO_digits, Pos2Z.inj_add.
    replace (Z.max (Zpos (digits2_pos p) + Zpos q + fe - 53) (3 - 1024 - 53) - fe)
      with 0 by (unfold fe in *; lia).
    simpl. rewrite iter_xO_digits, Pos2Z.inj_add.
    replace (Z.max (Zpos (digits2_pos p) + Zpos q + fe - 53) (3 - 1024 - 53) - fe)
      with 0 by (unfold fe in *; lia).
    simpl. destruct (Z.leb_spec fe (1024 - 53)); [done|lia].
Qed.

Lemma valid_exponent (s : bool) (m : positive) (e : Z) :
  valid_binary F64.prec F64.emax (S754_finite s m e) = true → - 1074 <= e <= 971.
Proof.
  unfold valid_binary, bounded, canonical_mantissa, fexp, emin, F64.prec, F64.emax.
  intros [Hc Hb]%andb_true_iff. apply Z.eqb_eq in Hc. apply Z.leb_le in Hb. lia.
Qed.

Lemma valid_mantissa (s : bool) (m : positive) (e : Z) :
  valid_binary F64.prec F64.emax (S754_finite s m e) = true → Zpos m < 2 ^ 53.
Proof.
  unfold valid_binary, bounded, canonical_mantissa, fexp, emin, F64.prec, F64.emax.
  intros [Hc _]%andb_true_iff. apply Z.eqb_eq in Hc.
  destruct (digits2_pos_bounds m) as [_ Hhi].
  eapply Z.lt_le_trans; [exact Hhi|]. apply Z.pow_le_mono_r; lia.
Qed.

(** For a positive timestamp with a negative exponent, subtracting the
    [float64] of its floor is exact: the difference is the timestamp
    minus its floor, a number in [0, 1). *)
Lemma sub_floor_exact (m : positive) (e : Z) :
  let ts := S754_finite false m e in
  let sec := F64.to_int64 (F64.Floor ts) in
  valid_binary F64.prec F64.emax ts = true → e < 0 →
  sec = Zpos m / 2 ^ (- e) ∧
  0 <= Zpos m - sec * 2 ^ (- e) < 2 ^ (- e) ∧
  F64.exact (F64.sub ts (F64.of_int64 sec)) (Zpos m - sec * 2 ^ (- e)) e.
Proof.
  intros ts sec Hvalid He.
  pose proof (valid_mantissa _ _ _ Hvalid) as Hm.
  pose proof (valid_exponent _ _ _ Hvalid) as Hex.
  assert (0 < 2 ^ (- e)) as Hpow by (apply Z.pow_pos_nonneg; lia).
  pose proof (Z.mul_div_le (Zpos m) (2 ^ (- e)) Hpow) as Hlo.
  pose proof (Z.mul_succ_div_gt (Zpos m) (2 ^ (- e)) Hpow) as Hhi.
  assert (0 <= Zpos m / 2 ^ (- e)) as Hq by (apply Z.div_pos; lia).
  assert (sec = Zpos m / 2 ^ (- e)) as Hsec.
  { unfold sec, ts, F64.Floor. destruct (Z.leb_spec 0 e); [lia|].
    apply to_int64_of_int64. nia. }
  split; [done|]. rewrite Hsec. split; [lia|].
  set (q := Zpos m / 2 ^ (- e)) in *.
  unfold F64.sub, F64.of_int64, binary_normalize, ts.
  destruct q as [|ps|ps] eqn:Hps; [|clear Hq|lia].
  { simpl. split; [lia|]. rewrite Z.sub_diag. simpl. lia. }
  destruct (binary_round_exact false ps 0) as (my & t & Ht & Hmy & Hmy53 & ->); [nia|lia|].
  assert (2 ^ t <= Zpos my) as Hpt by nia.
  assert (t < 53) as Ht53.
  { destruct (Z.lt_ge_cases t 53); [done|].
    assert (2 ^ 53 <= 2 ^ t) by (apply Z.pow_le_mono_r; lia). lia. }
  simpl SFsub. unfold cond_Zopp.
  set (ez := Z.min e (0 - t)).
  rewrite !shl_align_fst by (unfold ez; lia).
  set (r := Zpos m - Zpos ps * 2 ^ (- e)).
  assert (Zpos m * 2 ^ (e - ez) - Zpos my * 2 ^ (0 - t - ez) = r * 2 ^ (e - ez)) as HM.
  { unfold r. rewrite Hmy, Z.mul_sub_distr_r, <- !Z.mul_assoc, <- !Z.pow_add_r by (unfold ez; lia).
    do 3 f_equal. lia. }
  rewrite HM.
  assert (0 < 2 ^ (e - ez)) as Hpez by (apply Z.pow_pos_nonneg; unfold ez; lia).
  assert (0 <= r < 2 ^ (- e)) as Hr by (unfold r; lia).
  unfold binary_normalize.
  destruct (r * 2 ^ (e - ez)) as [|pm|pm] eqn:HpM; [|clear HM|nia].
  { assert (r = 0) as -> by nia. done. }
  assert (Zpos pm < 2 ^ 53) as HM53.
  { rewrite <- HpM. destruct (Z.le_ge_cases e (0 - t)).
    - replace (e - ez) with 0 by (unfold ez; lia). lia.
    - replace (e - ez) with (e + t) by (unfold ez; lia).
      assert (r * 2 ^ (e + t) < 2 ^ (- e) * 2 ^ (e + t)); [|].
      { apply Z.mul_lt_mono_pos_r; [apply Z.pow_pos_nonneg|]; lia. }
      rewrite <- Z.pow_add_r in * by lia. replace (- e + (e + t)) with t in * by lia. lia. }
  destruct (binary_round_exact false pm ez) as (mz & t' & Ht' & Hmz & _ & ->);
    [done|unfold ez; lia|].
  simpl. split; [unfold ez; lia|].
  rewrite Hmz, <- HpM, <- Z.mul_assoc, <- Z.pow_add_r by (unfold ez; lia).
  do 2 f_equal. lia.
Qed.
End Float64.

Section Codec.
Context `{Host}.

Lemma Floor_is_floor (ts : F64.float64) :
  valid_binary F64.prec F64.emax ts = true → F64.fits_int64 ts →
  F64.is_floor ts (F64.to_int64 (F64.Floor ts)).
Proof.
  destruct ts as [s|s| |s m e]; try done.
  intros Hvalid Hfits. pose proof (valid_mantissa s m e Hvalid) as Hm.
  unfold F64.Floor, F64.is_floor. unfold F64.fits_int64 in Hfits.
  destruct (Z.leb_spec 0 e) as [He|He].
  - rewrite to_int64_finite; (destruct (Z.leb_spec 0 e); [|lia]); [|exact Hfits].
    rewrite Z.shiftl_mul_pow2 by done. destruct s; lia.
  - set (v := if s then Zneg m else Zpos m).
    assert (0 < 2 ^ (- e)) as Hpow by (apply Z.pow_pos_nonneg; lia).
    pose proof (Z.mul_div_le v (2 ^ (- e)) Hpow) as Hlo.
    pose proof (Z.mul_succ_div_gt v (2 ^ (- e)) Hpow) as Hhi.
    assert (- Zpos m <= v <= Zpos m) as Hv by (unfold v; destruct s; lia).
    rewrite to_int64_of_int64; [lia|].
    assert (1 <= 2 ^ (- e)) by lia. nia.
Qed.

Lemma to_int64_is_trunc (x : F64.float64) :
  F64.fits_int64 x → F64.is_trunc x (F64.to_int64 x).
Proof.
  destruct x as [s|s| |s m e]; try done.
  intros Hfits. unfold F64.fits_int64 in Hfits.
  rewrite (to_int64_finite s m e Hfits). unfold F64.is_trunc.
  eexists. split; [done|].
  destruct (Z.leb_spec 0 e) as [He|He].
  - rewrite Z.shiftl_mul_pow2 by done. split; [|done].
    apply Z.mul_nonneg_nonneg; [lia|]. apply Z.pow_nonneg. lia.
  - rewrite Z.shiftr_div_pow2 by lia.
    assert (0 < 2 ^ (- e)) as Hpow by (apply Z.pow_pos_nonneg; lia).
    pose proof (Z.mul_div_le (Zpos m) (2 ^ (- e)) Hpow) as Hlo.
    pose proof (Z.mul_succ_div_gt (Zpos m) (2 ^ (- e)) Hpow) as Hhi.
    split; [apply Z.div_pos; lia|]. lia.
Qed.

(** C7.  The timestamp of a record is [time.Unix(sec, nsec)] where [sec]
    is the floor of the [float64] timestamp and [nsec] is the product of
    the fraction and [1e9], both in [float64] arithmetic, with its own
    fraction discarded; for a positive timestamp below [2^52] the
    fraction is the timestamp minus its floor exactly.  1000.5 gives
    second 1000 and 500000000 nanoseconds; a product of 1.6 gives 1
    nanosecond, not 2; -0.5 gives second -1 and 500000000 nanoseconds. *)
Theorem timestamp_is_floor_and_truncated_fraction (data : xmlTree.entry) :
  let ts := xmlTree.Timestamp data in
  let sec := F64.to_int64 (F64.Floor ts) in
  let frac_ns := F64.mul (F64.sub ts (F64.of_int64 sec)) F64.f1e9 in
  let nsec := F64.to_int64 frac_ns in
  Timestamp (repomd_of_entry data) = GoTime.Unix sec nsec ∧
  (valid_binary F64.prec F64.emax ts = true → F64.fits_int64 ts → F64.is_floor ts sec) ∧
  (F64.fits_int64 frac_ns → F64.is_trunc frac_ns nsec) ∧
  (∀ m e, ts = S754_finite false m e →
     valid_binary F64.prec F64.emax ts = true → e < 0 →
     0 <= Zpos m - sec * 2 ^ (- e) < 2 ^ (- e) ∧
     F64.exact (F64.sub ts (F64.of_int64 sec)) (Zpos m - sec * 2 ^ (- e)) e) ∧
  (ts = Demo.f1000_5 →
   sec = 1000 ∧ nsec = 500000000 ∧
   Timestamp (repomd_of_entry data)
   = GoTime.mkTime (GoTime.unixToInternal + 1000) 500000000) ∧
  (ts = Demo.f1_6e_9 →
   sec = 0 ∧ frac_ns = S754_finite false 7205759403792794 (- 52) ∧ nsec = 1) ∧
  (ts = Demo.fm0_5 → sec = - 1 ∧ nsec = 500000000).
Proof.
  intros ts sec frac_ns nsec. split_and!.
  - done.
  - apply Floor_is_floor.
  - apply to_int64_is_trunc.
  - intros m e Hts Hvalid He. subst sec. revert Hvalid. rewrite Hts. intros Hvalid.
    by destruct (sub_floor_exact m e Hvalid He) as (_ & Hr & Hx).
  - unfold repomd_of_entry. subst nsec frac_ns sec. fold ts.
    generalize ts. intros ? ->. by vm_compute.
  - subst nsec frac_ns sec. generalize ts. intros ? ->. by vm_compute.
  - subst nsec frac_ns sec. generalize ts. intros ? ->. by vm_compute.
Qed.
End Codec.

(** *** More on the codec *)

Section CodecMap.
Context `{Host}.

Lemma last_of_type_cons k d l :
  last_of_type k (d :: l) =
  match last_of_type k l with
  | Some d' => Some d'
  | None => if decide (xmlTree.Type_ d = k) then Some d else None
  end.
Proof.
  unfold last_of_type. rewrite filter_cons.
  destruct (decide (xmlTree.Type_ d = k)); [|by destruct (last _)].
  destruct (filter _ l) as [|d' l'] eqn:Hf; [done|].
  change (d :: d' :: l') with ([d] ++ d' :: l'). rewrite last_app.
  by destruct (last (d' :: l')) eqn:Hl; [|by apply last_None in Hl].
Qed.

(** Reading the map that the loop of [checkRepoMD] builds: the last
    entry of the type decides. *)
Lemma fold_insert_lookup (l : list xmlTree.entry) (acc : gmap string RepoMD) k :
  fold_left (λ db data, <[xmlTree.Type_ data := repomd_of_entry data]> db) l acc !! k
  = match last_of_type k l with
    | Some d => Some (repomd_of_entry d)
    | None => acc !! k
    end.
Proof.
  revert acc. induction l as [|d l IH]; intros acc; [done|].
  simpl. rewrite IH, last_of_type_cons.
  destruct (last_of_type k l); [done|].
  destruct (decide (xmlTree.Type_ d = k)) as [<-|Hne].
  - by rewrite lookup_insert_eq.
  - by rewrite lookup_insert_ne.
Qed.

Lemma last_of_type_Some k l :
  is_Some (last_of_type k l) ↔ k ∈ xmlTree.Type_ <$> l.
Proof.
  induction l as [|d l IH]; [by split; [intros [? ?]|intros ?%elem_of_nil]|].
  rewrite last_of_type_cons, fmap_cons, elem_of_cons, <- IH.
  destruct (last_of_type k l); [by split; eauto|].
  destruct (decide (xmlTree.Type_ d = k)) as [<-|Hne].
  - split; eauto.
  - split; [by intros [? ?]|]. intros [?|[? ?]]; done.
Qed.

(** X1.  For a document that decodes, looking a data type up in the
    mapping of [checkRepoMD] gives the record made from the last entry of
    that type in the document, and nothing when the document has no such
    entry. *)
Theorem checkRepoMD_last_entry_wins repo data tree k :
  data ≠ [] → xml_Unmarshal data = inl tree →
  (checkRepoMD repo data).2 = None ∧
  map_index (checkRepoMD repo data).1 k
  = match last_of_type k (xmlTree.Data tree) with
    | Some d => (repomd_of_entry d, true)
    | None => (RepoMD_zero, false)
    end.
Proof.
  intros Hdata Htree. unfold checkRepoMD.
  destruct data as [|c data]; [done|]. simpl. rewrite Htree. simpl.
  split; [done|]. unfold map_index. simpl. rewrite fold_insert_lookup.
  by destruct (last_of_type k (xmlTree.Data tree)).
Qed.

(** X2.  [checkRepoMD] returns the nil map without error on no bytes, the
    nil map with the decoder's error on bytes that do not decode, and
    otherwise a map, never nil, without error, whose keys are the data
    types of the document; it never returns a map together with an
    error. *)
Theorem checkRepoMD_result repo data :
  match checkRepoMD repo data with
  | (None, None) => data = []
  | (None, Some err) => data ≠ [] ∧ xml_Unmarshal data = inr err
  | (Some m, None) =>
      data ≠ [] ∧
      ∃ tree, xml_Unmarshal data = inl tree ∧
              ∀ k, is_Some (m !! k) ↔ k ∈ xmlTree.Type_ <$> xmlTree.Data tree
  | (Some _, Some _) => False
  end.
Proof.
  unfold checkRepoMD. destruct data as [|c data]; [done|]. simpl.
  destruct (xml_Unmarshal (c :: data)) as [tree|err]; [|done].
  split; [done|]. exists tree. split; [done|]. intros k.
  rewrite fold_insert_lookup, lookup_empty, <- last_of_type_Some.
  destruct (last_of_type k (xmlTree.Data tree)); [by split; eauto|].
  split; by intros [? ?].
Qed.

Lemma Unix_nsec_range (s n : Z) :
  0 <= GoTime.nsec (GoTime.Unix s n) < 1000000000.
Proof.
  unfold GoTime.Unix.
  destruct ((n <? 0) || (1000000000 <=? n)) eqn:Hc.
  - pose proof (Z.quot_rem' n 1000000000) as Hqr.
    pose proof (Z.rem_bound_abs n 1000000000) as Hb.
    destruct (Z.ltb_spec (n - n ÷ 1000000000 * 1000000000) 0); simpl; lia.
  - apply orb_false_iff in Hc as [H1 H2].
    apply Z.ltb_ge in H1. apply Z.leb_gt in H2. simpl. lia.
Qed.

(** X3.  Whatever the timestamps of a document are (NaN and infinities
    included), every record of the mapping of [checkRepoMD] carries a
    normalised instant: its nanoseconds are in [0, 999999999]. *)
Theorem checkRepoMD_instants_normalised repo data m k r :
  (checkRepoMD repo data).1 = Some m → m !! k = Some r →
  0 <= GoTime.nsec (Timestamp r) < 1000000000.
Proof.
  unfold checkRepoMD. destruct data as [|c data]; [done|]. simpl.
  destruct (xml_Unmarshal (c :: data)) as [tree|err]; [|done]. simpl.
  intros [= <-]. rewrite fold_insert_lookup, lookup_empty.
  destruct (last_of_type k (xmlTree.Data tree)) as [d|]; [|done].
  intros [= <-]. apply Unix_nsec_range.
Qed.
End CodecMap.


(** *** Failures of the metadata steps *)

Section MetadataSteps.
Context `{Registry}.
Import Repository.

(** X4.  [remoteMetadata] and [localMetadata] do not panic, and when
    they return an error other than [io.EOF] they return no bytes: what
    was read before the error is dropped. *)
Theorem metadata_fetch_error_drops_the_bytes repo w :
  match remoteMetadata repo w with
  | Ok (data, Some err) _ _ => is_EOF err = false → data = []
  | Ok (_, None) _ _ => True
  | Panic _ _ => False
  end ∧
  match localMetadata repo w with
  | Ok (data, Some err) _ _ => is_EOF err = false → data = []
  | Ok (_, None) _ _ => True
  | Panic _ _ => False
  end.
Proof.
  split.
  - unfold remoteMetadata. exec.
    destruct (http_Get _ w) as [w1 [body|err]]; exec; [|done].
    destruct (io_Copy body w1) as [w2 [data [err|]]]; exec; [|done].
    destruct (is_EOF err) eqn:He; exec; [by rewrite He|done].
  - unfold localMetadata. exec.
    destruct (path_exists _ w); exec; [|done].
    destruct (os_Open _ w) as [w1 [f|err]]; exec; [|done].
    destruct (io_Copy f w1) as [w2 [data [err|]]]; exec; [|done].
    destruct (is_EOF err) eqn:He; exec; [by rewrite He|done].
Qed.

(** X5.  When a metadata step of [setupBackendFromRemote] fails, the run
    returns that error, [io.EOF] included, and leaves the repository as
    it was: after a failed fetch or a remote document that does not
    decode, the only call made is the request (the cache is not read);
    after a failed read or decode of the cached document no candidate
    is tried. *)
Theorem remote_metadata_failure_aborts repo w :
  (∀ rd err w1 evs,
     remoteMetadata repo w = Ok (rd, Some err) w1 evs →
     setupBackendFromRemote repo w = Ok (repo, Some err) w1 [EvHttpGet (RepoMdUrl repo)]) ∧
  (∀ rd w1 evs rmd err,
     remoteMetadata repo w = Ok (rd, None) w1 evs →
     checkRepoMD repo rd = (rmd, Some err) →
     setupBackendFromRemote repo w = Ok (repo, Some err) w1 [EvHttpGet (RepoMdUrl repo)]) ∧
  (∀ rd w1 evs rmd ld lerr w2 evs1,
     remoteMetadata repo w = Ok (rd, None) w1 evs →
     checkRepoMD repo rd = (rmd, None) →
     localMetadata repo w1 = Ok (ld, lerr) w2 evs1 →
     (lerr ≠ None ∨ (checkRepoMD repo ld).2 ≠ None) →
     ∃ err, setupBackendFromRemote repo w
            = Ok (repo, Some err) w2 (EvHttpGet (RepoMdUrl repo) :: evs1) ∧
            tried (EvHttpGet (RepoMdUrl repo) :: evs1) = [] ∧
            (lerr = None → (checkRepoMD repo ld).2 = Some err) ∧
            (lerr ≠ None → lerr = Some err)).
Proof.
  assert (∀ r w1 evs, remoteMetadata repo w = Ok r w1 evs →
                      evs = [EvHttpGet (RepoMdUrl repo)]) as Hevs.
  { intros r w1 evs Hrm.
    destruct (remoteMetadata_returns repo w) as (r' & w' & Hrm'). congruence. }
  split_and!.
  - intros rd err w1 evs Hrm. rewrite (Hevs _ _ _ Hrm) in Hrm.
    unfold setupBackendFromRemote. by rewrite (bind_Ok _ _ _ _ _ _ Hrm).
  - intros rd w1 evs rmd err Hrm Hp. rewrite (Hevs _ _ _ Hrm) in Hrm.
    unfold setupBackendFromRemote. rewrite (bind_Ok _ _ _ _ _ _ Hrm). simpl.
    by rewrite Hp.
  - intros rd w1 evs rmd ld lerr w2 evs1 Hrm Hp Hlm Hfail.
    rewrite (Hevs _ _ _ Hrm) in Hrm.
    assert (tried evs1 = []) as Ht.
    { destruct (localMetadata_returns repo w1) as (r' & w' & evs' & Hlm' & [-> | ->]);
        rewrite Hlm' in Hlm; by simplify_eq. }
    unfold setupBackendFromRemote. rewrite (bind_Ok _ _ _ _ _ _ Hrm). simpl.
    rewrite Hp. simpl. rewrite (bind_Ok _ _ _ _ _ _ Hlm). simpl.
    destruct lerr as [err|].
    + exists err. simpl. rewrite app_nil_r. by split_and!.
    + destruct Hfail as [?|Hfail]; [done|].
      destruct (checkRepoMD repo ld) as [lmd [err|]]; [|done].
      exists err. simpl. rewrite app_nil_r. by split_and!.
Qed.

(** X6.  The same for [setupBackendFromLocal]: a failed read or decode of
    the cached document is what the run returns, no candidate is tried
    and the repository is left as it was. *)
Theorem local_metadata_failure_aborts repo w :
  ∀ ld lerr w1 evs,
    localMetadata repo w = Ok (ld, lerr) w1 evs →
    (lerr ≠ None ∨ (checkRepoMD repo ld).2 ≠ None) →
    ∃ err, setupBackendFromLocal repo w = Ok (repo, Some err) w1 evs ∧
           tried evs = [] ∧
           (lerr = None → (checkRepoMD repo ld).2 = Some err) ∧
           (lerr ≠ None → lerr = Some err).
Proof.
  intros ld lerr w1 evs Hlm Hfail.
  assert (tried evs = []) as Ht.
  { destruct (localMetadata_returns repo w) as (r' & w' & evs' & Hlm' & [-> | ->]);
      rewrite Hlm' in Hlm; by simplify_eq. }
  unfold setupBackendFromLocal. rewrite (bind_Ok _ _ _ _ _ _ Hlm). simpl.
  destruct lerr as [err|].
  - exists err. simpl. rewrite app_nil_r. by split_and!.
  - destruct Hfail as [?|Hfail]; [done|].
    destruct (checkRepoMD repo ld) as [lmd [err|]]; [|done].
    exists err. simpl. rewrite app_nil_r. by split_and!.
Qed.

Lemma set_Backend_same (repo : Repository.t) : repo = set_Backend repo (Backend repo).
Proof. by destruct repo. Qed.

Lemma setup_result_fields repo o (r : Res (Repository.t * option error)) :
  setup_result repo o r →
  match r with
  | Ok (repo', _) _ _ => repo' = set_Backend repo (Backend repo')
  | Panic _ _ => True
  end.
Proof.
  destruct o; simpl.
  - intros [w' [-> | ->]]; [apply set_Backend_same|done].
  - by intros (b & ba & w' & -> & _).
  - by intros (b & w' & -> & _).
Qed.

Lemma sync_fields_remote repo w :
  match setupBackendFromRemote repo w with
  | Ok (repo', _) _ _ => repo' = set_Backend repo (Backend repo')
  | Panic _ _ => True
  end.
Proof.
  destruct (setupBackendFromRemote_report repo w)
    as [(err & w' & -> & _)|(rd & w1 & evs0 & evs & o & _ & _ & _ & _ & Hres)].
  - apply set_Backend_same.
  - by apply setup_result_fields in Hres.
Qed.

Lemma sync_fields_local repo w :
  match setupBackendFromLocal repo w with
  | Ok (repo', _) _ _ => repo' = set_Backend repo (Backend repo')
  | Panic _ _ => True
  end.
Proof.
  destruct (setupBackendFromLocal_report repo w)
    as [(err & w' & -> & _)|(evs0 & evs & o & _ & _ & _ & Hres)].
  - apply set_Backend_same.
  - by apply setup_result_fields in Hres.
Qed.

(** X7.  A synchronisation of either mode changes no field of the
    repository but [Backend]: name, URLs, cache paths and the list of
    backend names are those it started with. *)
Theorem sync_changes_only_the_backend repo w :
  match setupBackendFromRemote repo w with
  | Ok (repo', _) _ _ => repo' = set_Backend repo (Backend repo')
  | Panic _ _ => True
  end ∧
  match setupBackendFromLocal repo w with
  | Ok (repo', _) _ _ => repo' = set_Backend repo (Backend repo')
  | Panic _ _ => True
  end.
Proof. split; [apply sync_fields_remote|apply sync_fields_local]. Qed.
End MetadataSteps.


(** *** Metadata that offers nothing *)

Section NoEntry.
Context `{Registry}.
Import Repository.

Lemma remote_turn_no_entry rd rmd lmd :
  has_no_entry rmd → skips (setupBackendFromRemote_turn rd rmd lmd).
Proof.
  intros Hno b [repo backend] w. unfold setupBackendFromRemote_turn.
  destruct (NewBackend_returns b repo w) as ([ba err] & w1 & Hnb).
  rewrite (bind_Ok _ _ _ _ _ _ Hnb). simpl in *.
  destruct err as [err|]; exec; [left; by eexists _, _|].
  destruct ba as [ba|]; exec; [|right; by eexists].
  specialize (Hno (Backend.YumDataType ba)).
  destruct (map_index rmd (Backend.YumDataType ba)) as [r ok]. simpl in Hno. subst ok.
  exec. left. by eexists _, _.
Qed.

Lemma local_turn_no_entry md :
  has_no_entry md → skips (setupBackendFromLocal_turn md).
Proof.
  intros Hno b [repo backend] w. unfold setupBackendFromLocal_turn.
  destruct (NewBackend_returns b repo w) as ([ba err] & w1 & Hnb).
  rewrite (bind_Ok _ _ _ _ _ _ Hnb). simpl in *.
  destruct err as [err|]; exec; [left; by eexists _, _|].
  destruct ba as [ba|]; exec; [|right; by eexists].
  specialize (Hno (Backend.YumDataType ba)).
  destruct (map_index md (Backend.YumDataType ba)) as [r ok]. simpl in Hno. subst ok.
  exec. left. by eexists _, _.
Qed.

Lemma range_Backends_skips turn names vars w :
  skips turn →
  let r := range_Backends turn names vars w in
  existsb is_database_call (events r) = false ∧ writes (events r) = false ∧
  forallb is_local_step (events r) = true ∧
  match r with
  | Ok vars' _ _ => vars' = vars ∧ tried (events r) = names
  | Panic _ _ => True
  end.
Proof.
  intros Hturn. revert w. induction names as [|b names IH]; intros w; [done|].
  simpl. destruct (Hturn b vars w) as [(w' & err & Hr)|(w' & Hr)].
  - rewrite (bind_Ok _ _ _ _ _ _ Hr). simpl.
    destruct (IH w') as (Hb & Hw & Hl & Hres).
    destruct (range_Backends turn names vars w') as [vars' w'' evs|w'' evs]; simpl in *.
    + destruct Hres as [-> ->]. by rewrite Hb, Hw, Hl.
    + by rewrite Hb, Hw, Hl.
  - unfold bind. rewrite Hr. done.
Qed.

(** X8.  When the cached metadata has no entry (in particular when the
    cache file is missing), [setupBackendFromLocal] calls none of
    [HasDB], [GetLatestDB] and [LoadDB] on a backend ([YumDataType()],
    the one method the loop calls before the lookup, is not among the
    calls observed).  It calls [NewBackend] for every name and, unless a
    factory makes it panic, fails with "No valid backend found", the
    repository left as it was. *)
Theorem local_without_entries_fails repo w :
  let r := setupBackendFromLocal repo w in
  let report :=
    existsb is_database_call (events r) = false ∧
    match r with
    | Ok (repo', err) _ _ =>
        repo' = repo ∧ err = Some (fmt_Errorf "No valid backend found") ∧
        tried (events r) = Backends repo
    | Panic _ _ => True
    end in
  (∀ ld w1 evs md,
     localMetadata repo w = Ok (ld, None) w1 evs → checkRepoMD repo ld = (md, None) →
     has_no_entry md → report) ∧
  (path_exists (LocalRepoMdXml repo) w = false → report).
Proof.
  intros r report.
  assert (∀ ld w1 evs md,
            localMetadata repo w = Ok (ld, None) w1 evs → checkRepoMD repo ld = (md, None) →
            has_no_entry md → report) as Hgen.
  { intros ld w1 evs md Hlm Hp Hno. unfold report, r, setupBackendFromLocal.
    assert (tried evs = [] ∧ existsb is_database_call evs = false) as [Ht Hb].
    { destruct (localMetadata_returns repo w) as (r' & w' & evs' & Hlm' & [-> | ->]);
        rewrite Hlm' in Hlm; by simplify_eq. }
    rewrite (bind_Ok _ _ _ _ _ _ Hlm). simpl. rewrite Hp. simpl.
    pose proof (range_Backends_skips _ (Backends repo) (repo, None) w1
                  (local_turn_no_entry md Hno)) as (Hb' & _ & _ & Hres).
    unfold bind.
    destruct (range_Backends _ (Backends repo) (repo, None) w1) as [vars' w'' evs'|w'' evs'];
      simpl in *.
    - destruct Hres as [-> Htr]. simpl.
      rewrite app_nil_r, existsb_app, tried_app, Hb, Hb', Ht. done.
    - by rewrite existsb_app, Hb, Hb'. }
  split; [exact Hgen|].
  intros Hp. apply (Hgen [] w [] None); [|done|done].
  unfold localMetadata. exec. by rewrite Hp.
Qed.

(** X9.  When the remote metadata has no entry (the server answered with
    no bytes, or with a document without data), [setupBackendFromRemote]
    calls none of [HasDB], [GetLatestDB] and [LoadDB] on a backend
    ([YumDataType()], the one method the loop calls before the lookup, is
    not among the calls observed) and does not write the cache file; it
    returns an error: that of the cached document, or, after [NewBackend]
    was called for every name, "No valid backend found"; the repository
    is left as it was. *)
Theorem remote_without_entries_fails repo w rd w1 evs rmd :
  remoteMetadata repo w = Ok (rd, None) w1 evs → checkRepoMD repo rd = (rmd, None) →
  has_no_entry rmd →
  let r := setupBackendFromRemote repo w in
  existsb is_database_call (events r) = false ∧ writes (events r) = false ∧
  match r with
  | Ok (repo', Some err) _ _ =>
      repo' = repo ∧
      (tried (events r) = [] ∨
       err = fmt_Errorf "No valid backend found" ∧ tried (events r) = Backends repo)
  | Ok (_, None) _ _ => False
  | Panic _ _ => True
  end.
Proof.
  intros Hrm Hp Hno r. unfold r, setupBackendFromRemote.
  assert (evs = [EvHttpGet (RepoMdUrl repo)]) as ->.
  { destruct (remoteMetadata_returns repo w) as (r' & w' & Hrm'). congruence. }
  rewrite (bind_Ok _ _ _ _ _ _ Hrm). simpl. rewrite Hp. simpl.
  destruct (localMetadata_returns repo w1) as ([ld lerr] & w2 & evs1 & Hlm & Hevs1).
  assert (tried evs1 = [] ∧ existsb is_database_call evs1 = false ∧ writes evs1 = false)
    as (Ht & Hb & Hw) by (by destruct Hevs1 as [-> | ->]).
  rewrite (bind_Ok _ _ _ _ _ _ Hlm). simpl.
  destruct lerr as [err|]; simpl.
  { rewrite app_nil_r, Hb, Hw, Ht. split_and!; try done. by left. }
  destruct (checkRepoMD repo ld) as [lmd [err|]]; simpl.
  { rewrite app_nil_r, Hb, Hw, Ht. split_and!; try done. by left. }
  pose proof (range_Backends_skips _ (Backends repo) (repo, None) w2
                (remote_turn_no_entry rd rmd lmd Hno)) as (Hb' & Hw' & _ & Hres).
  unfold bind.
  destruct (range_Backends _ (Backends repo) (repo, None) w2) as [vars' w'' evs'|w'' evs'];
    simpl in *.
  - destruct Hres as [-> Htr]. simpl. unfold writes in *.
    rewrite app_nil_r, !existsb_app, !tried_app, Hb, Hb', Hw, Hw', Ht, Htr.
    split_and!; try done. by right.
  - unfold writes in *. by rewrite !existsb_app, Hb, Hb', Hw, Hw'.
Qed.
End NoEntry.


(** *** Names without a factory *)

Section Unregistered.
Context `{Registry}.
Import Repository.

Lemma same_outcome_refl {A} (r : Res A) : same_outcome r r.
Proof. by destruct r. Qed.

Lemma same_outcome_after {A} evs evs' (r r' : Res A) :
  same_outcome r r' → same_outcome (after evs r) (after evs' r').
Proof. by destruct r, r'. Qed.

Lemma NewBackend_unregistered bname repo w :
  registered bname = false →
  NewBackend bname repo w
  = Ok (None, Some (fmt_Errorf ("yum: no such backend [" +:+ bname +:+ "]"))) w
       [EvNewBackend bname
          (Some (fmt_Errorf ("yum: no such backend [" +:+ bname +:+ "]")))].
Proof.
  unfold registered, NewBackend. intros Hr%bool_decide_eq_false.
  destruct (g_backends !! bname) as [f|]; [by destruct Hr|]. by exec.
Qed.

Lemma range_Backends_unregistered turn names vars w :
  (∀ b vars w, registered b = false → ∃ evs, turn b vars w = Ok (Continue, vars) w evs) →
  same_outcome (range_Backends turn names vars w)
               (range_Backends turn (filter (λ b, registered b = true) names) vars w).
Proof.
  intros Hturn. revert vars w. induction names as [|b names IH]; intros vars w; [done|].
  rewrite filter_cons. destruct (decide (registered b = true)) as [Hr|Hr].
  - simpl. unfold bind. destruct (turn b vars w) as [[c vars'] w' evs|]; [|done].
    apply same_outcome_after. simpl. destruct c; [apply IH|apply same_outcome_refl].
  - apply not_true_is_false in Hr. destruct (Hturn b vars w Hr) as [evs Hb].
    simpl. rewrite (bind_Ok _ _ _ _ _ _ Hb). simpl.
    rewrite <- (after_nil (range_Backends turn (filter _ names) vars w)).
    apply same_outcome_after, IH.
Qed.

(** X10.  A name without a factory in [g_backends] costs one failed call
    of [NewBackend], with the error "yum: no such backend [name]", and
    nothing else: the loop of either mode ends with the same variables
    and the same world as on the list of names without the unregistered
    ones. *)
Theorem unregistered_names_are_skipped names vars w :
  (∀ rd rmd lmd,
     same_outcome
       (range_Backends (setupBackendFromRemote_turn rd rmd lmd) names vars w)
       (range_Backends (setupBackendFromRemote_turn rd rmd lmd)
          (filter (λ b, registered b = true) names) vars w)) ∧
  (∀ md,
     same_outcome
       (range_Backends (setupBackendFromLocal_turn md) names vars w)
       (range_Backends (setupBackendFromLocal_turn md)
          (filter (λ b, registered b = true) names) vars w)) ∧
  (∀ bname repo,
     registered bname = false →
     NewBackend bname repo w
     = Ok (None, Some (fmt_Errorf ("yum: no such backend [" +:+ bname +:+ "]"))) w
          [EvNewBackend bname
             (Some (fmt_Errorf ("yum: no such backend [" +:+ bname +:+ "]")))]).
Proof.
  split_and!.
  - intros rd rmd lmd. apply range_Backends_unregistered.
    intros b [repo backend] w' Hr. unfold setupBackendFromRemote_turn.
    rewrite (bind_Ok _ _ _ _ _ _ (NewBackend_unregistered b repo w' Hr)). simpl.
    by eexists.
  - intros md. apply range_Backends_unregistered.
    intros b [repo backend] w' Hr. unfold setupBackendFromLocal_turn.
    rewrite (bind_Ok _ _ _ _ _ _ (NewBackend_unregistered b repo w' Hr)). simpl.
    by eexists.
  - intros bname repo. apply NewBackend_unregistered.
Qed.
End Unregistered.

(** *** Where downloads come from, and when *)

Section Downloads.
Context `{Registry}.
Import Repository.

(** A property of lists of calls that holds of every turn holds of the
    whole loop when it holds of no call and of concatenations. *)
Lemma range_Backends_turnwise (Q : list event → Prop) (I : Repository.t → Prop) turn :
  Q [] → (∀ a b, Q a → Q b → Q (a ++ b)) →
  (∀ repo b, I repo → I (set_Backend repo b)) →
  (∀ b repo w, I repo →
     Q (events (turn b (repo, None) w)) ∧
     ∃ en, turn_result b repo en (turn b (repo, None) w)) →
  ∀ names repo w, I repo → Q (events (range_Backends turn names (repo, None) w)).
Proof.
  intros Hnil Happ HI Hturn names.
  induction names as [|b names IH]; intros repo w Hrepo; [done|].
  simpl. destruct (Hturn b repo w Hrepo) as (HQ & en & Hres). unfold bind.
  destruct en; simpl in Hres.
  - destruct Hres as [w' [Hr|Hr]]; rewrite Hr in *; simpl in *;
      rewrite events_after; apply Happ; try done; apply IH; auto.
  - destruct Hres as (ba & w0 & Hr & _). rewrite Hr in *. simpl in *.
    by rewrite app_nil_r.
  - destruct Hres as (w' & Hr & _). by rewrite Hr in *.
Qed.

Lemma remote_turn_offered_download rd rmd lmd b repo w :
  Forall (offered_download (RepoUrl repo) rmd)
         (events (setupBackendFromRemote_turn rd rmd lmd b (repo, None) w)).
Proof.
  unfold setupBackendFromRemote_turn.
  destruct (NewBackend_returns b repo w) as ([ba err] & w1 & Hnb).
  rewrite (bind_Ok _ _ _ _ _ _ Hnb). simpl in *.
  destruct err as [err|]; exec; [by repeat constructor|].
  destruct ba as [ba|]; exec; [|by repeat constructor].
  destruct (map_index rmd (Backend.YumDataType ba)) as [rrepomd []] eqn:Hr; exec;
    [|by repeat constructor].
  destruct (map_index lmd (Backend.YumDataType ba)) as [lrepomd ?]; exec.
  assert (offered_download (RepoUrl repo) rmd
            (EvGetLatestDB b (RepoUrl repo +:+ "/" +:+ Location rrepomd) None) ∧
          ∀ e, offered_download (RepoUrl repo) rmd
                 (EvGetLatestDB b (RepoUrl repo +:+ "/" +:+ Location rrepomd) (Some e)))
    as [Hok Hko] by (split; [|intros e]; by eexists _, _).
  destruct (needs_update _ _ _); exec.
  - destruct (Backend.GetLatestDB ba _ w1) as [w2 [e|]]; exec;
      [by repeat constructor|].
    destruct (ioutil_WriteFile _ _ w2) as [w3 [e|]]; exec; [by repeat constructor|].
    rewrite (load_candidate_run _ _ _ ba) by done. simpl. by repeat constructor.
  - rewrite (load_candidate_run _ _ _ ba) by done. simpl. by repeat constructor.
Qed.

(** X11.  Every download of [setupBackendFromRemote] is of the URL of
    the repository, "/", and the location of a record of the remote
    metadata document. *)
Theorem downloads_come_from_the_repository repo w rd w1 evs rmd :
  remoteMetadata repo w = Ok (rd, None) w1 evs → checkRepoMD repo rd = (rmd, None) →
  Forall (offered_download (RepoUrl repo) rmd) (events (setupBackendFromRemote repo w)).
Proof.
  intros Hrm Hp. unfold setupBackendFromRemote.
  assert (evs = [EvHttpGet (RepoMdUrl repo)]) as ->.
  { destruct (remoteMetadata_returns repo w) as (r' & w' & Hrm'). congruence. }
  rewrite (bind_Ok _ _ _ _ _ _ Hrm). simpl. rewrite Hp. simpl.
  destruct (localMetadata_returns repo w1) as ([ld lerr] & w2 & evs1 & Hlm & Hevs1).
  assert (Forall (offered_download (RepoUrl repo) rmd) evs1) as Hf
    by (destruct Hevs1 as [-> | ->]; by repeat constructor).
  rewrite (bind_Ok _ _ _ _ _ _ Hlm). simpl.
  rewrite !events_after. constructor; [done|]. apply Forall_app. split; [done|].
  destruct lerr as [err|]; [by constructor|].
  destruct (checkRepoMD repo ld) as [lmd [err|]]; [by constructor|].
  rewrite events_conclude.
  apply (range_Backends_turnwise _ (λ r, RepoUrl r = RepoUrl repo)); try done.
  - intros a b Ha Hb. apply Forall_app. by split.
  - intros b repo' w' Hu. rewrite <- Hu. split; [apply remote_turn_offered_download|].
    destruct (remote_turn_sound rd rmd lmd b repo' w') as (en & _ & Hres). by exists en.
Qed.

Lemma remote_turn_same_metadata rd md b repo w :
  downloads_only_without_db (events (setupBackendFromRemote_turn rd md md b (repo, None) w)).
Proof.
  unfold setupBackendFromRemote_turn.
  destruct (NewBackend_returns b repo w) as ([ba err] & w1 & Hnb).
  rewrite (bind_Ok _ _ _ _ _ _ Hnb). simpl in *.
  assert (∀ e e' : event, is_download e = true → is_download e' = false → e ∈ [e'] → False)
    as Hone by (intros e e' ?? ->%list_elem_of_singleton; congruence).
  destruct err as [err|]; exec; [by intros ??? ?%Hone|].
  destruct ba as [ba|]; exec; [|by intros ??? ?%Hone].
  destruct (map_index md (Backend.YumDataType ba)) as [r []] eqn:Hr; exec;
    [|by intros ??? ?%Hone].
  unfold needs_update. rewrite After_irrefl, orb_false_r.
  destruct (Backend.HasDB ba w1); simpl; exec.
  - rewrite (load_candidate_run _ _ _ ba) by done. simpl.
    intros b' url err Hin. exfalso.
    repeat (apply elem_of_cons in Hin as [Hin|Hin]; [done|]). by apply elem_of_nil in Hin.
  - intros b' url err Hin.
    assert (b' = b) as ->.
    { revert Hin. generalize (Backend.GetLatestDB ba (RepoUrl repo +:+ "/" +:+ Location r) w1).
      intros [w2 [e|]]; exec.
      - intros Hin. repeat (apply elem_of_cons in Hin as [Hin|Hin]; [by simplify_eq|]).
        by apply elem_of_nil in Hin.
      - destruct (ioutil_WriteFile _ _ w2) as [w3 [e|]]; exec.
        + intros Hin. repeat (apply elem_of_cons in Hin as [Hin|Hin]; [by simplify_eq|]).
          by apply elem_of_nil in Hin.
        + rewrite (load_candidate_run _ _ _ ba) by done. simpl.
          intros Hin. repeat (apply elem_of_cons in Hin as [Hin|Hin]; [by simplify_eq|]).
          by apply elem_of_nil in Hin. }
    apply elem_of_cons; right. apply elem_of_cons; by left.
Qed.
End Downloads.


Section FreshCache.
Context `{Registry}.
Import Repository.

(** X12.  When the cache file holds the very bytes the server sends,
    [setupBackendFromRemote] downloads only for candidates whose
    [HasDB()] returned false: a candidate with a database is loaded as it
    is. *)
Theorem fresh_cache_downloads_only_missing_databases repo w rd w1 evs w2 evs1 md :
  remoteMetadata repo w = Ok (rd, None) w1 evs →
  localMetadata repo w1 = Ok (rd, None) w2 evs1 →
  checkRepoMD repo rd = (md, None) →
  downloads_only_without_db (events (setupBackendFromRemote repo w)).
Proof.
  intros Hrm Hlm Hp. unfold setupBackendFromRemote.
  rewrite (bind_Ok _ _ _ _ _ _ Hrm). simpl. rewrite Hp. simpl.
  rewrite (bind_Ok _ _ _ _ _ _ Hlm). simpl. rewrite Hp. simpl.
  rewrite !events_after, events_conclude.
  assert (∀ e, is_download e = true → e ∈ evs ++ evs1 → False) as Hpre.
  { intros e He Hin.
    destruct (remoteMetadata_returns repo w) as (r' & w' & Hrm').
    destruct (localMetadata_returns repo w1) as (r'' & w'' & evs' & Hlm' & Hevs').
    rewrite Hrm' in Hrm. rewrite Hlm' in Hlm. simplify_eq.
    destruct Hevs' as [-> | ->];
      repeat (apply elem_of_cons in Hin as [->|Hin]; [done|]); by apply elem_of_nil in Hin. }
  pose proof (range_Backends_turnwise downloads_only_without_db (λ _, True)
                (setupBackendFromRemote_turn rd md md)) as Hloop.
  intros b url err Hin. rewrite app_assoc in *.
  apply elem_of_app in Hin as [Hin|Hin]; [by destruct (Hpre (EvGetLatestDB b url err) eq_refl Hin)|].
  apply elem_of_app; right. revert b url err Hin. apply Hloop; try done.
  - by intros ??? ?%elem_of_nil.
  - intros a b Ha Hb b' url err [Hin|Hin]%elem_of_app; apply elem_of_app; eauto.
  - intros b repo' w' _. split; [apply remote_turn_same_metadata|].
    destruct (remote_turn_sound rd md md b repo' w') as (en & _ & Hres). by exists en.
Qed.
End FreshCache.

(** *** The constructor *)

Section Constructor.
Context `{Registry}.
Import Repository.

Lemma local_events_are_local repo w :
  forallb is_local_step (events (setupBackendFromLocal repo w)) = true.
Proof.
  destruct (setupBackendFromLocal_report repo w)
    as [(err & w' & _ & [-> | ->])|(evs0 & evs & o & -> & Hevs0 & HL & _)]; try done.
  rewrite forallb_app, (local_loop_steps _ _ _ HL), andb_true_r.
  by destruct Hevs0 as [->| ->].
Qed.

(** X13.  [NewRepository] returns either a repository and no error, or no
    repository and an error.  A repository it returns has the fields it
    was asked for, with the metadata URL and the cache path derived from
    them; without [setupBackend] it has no backend and nothing but
    [MkdirAll] was called; with [setupBackend] it has an active backend
    whose [LoadDB] succeeded.  When [MkdirAll] fails, its error is
    returned and no synchronisation is started. *)
Theorem NewRepository_contract name url cachedir backends setupBackend checkForUpdates w :
  let repo0 :=
    Repository.mk _ name url (url +:+ "/repodata/repomd.xml")
      (filepath_Join cachedir "repomd.xml") cachedir backends None in
  match NewRepository name url cachedir backends setupBackend checkForUpdates w with
  | Ok (Some repo', None) w' evs =>
      (os_MkdirAll cachedir w).2 = None ∧
      repo' = set_Backend repo0 (Backend repo') ∧
      if setupBackend
      then ∃ b w0, Backend repo' = Some b ∧ Backend.LoadDB b w0 = (w', None)
      else Backend repo' = None ∧ evs = [] ∧ w' = (os_MkdirAll cachedir w).1
  | Ok (None, Some err) w' evs =>
      ((os_MkdirAll cachedir w).2 = Some err ∧ evs = [] ∧ w' = (os_MkdirAll cachedir w).1) ∨
      ((os_MkdirAll cachedir w).2 = None ∧ setupBackend = true)
  | Ok (Some _, Some _) _ _ | Ok (None, None) _ _ => False
  | Panic _ _ => (os_MkdirAll cachedir w).2 = None ∧ setupBackend = true
  end.
Proof.
  intros repo0. unfold NewRepository. fold repo0. exec.
  destruct (os_MkdirAll cachedir w) as [w1 [err|]]; exec; [by left|].
  destruct setupBackend; exec; [|done].
  pose proof (sync_invariant_remote repo0 w1 eq_refl) as Hr.
  pose proof (sync_invariant_local repo0 w1 eq_refl) as Hl.
  pose proof (sync_fields_remote repo0 w1) as Hfr.
  pose proof (sync_fields_local repo0 w1) as Hfl.
  unfold bind. destruct checkForUpdates.
  - destruct (setupBackendFromRemote repo0 w1) as [[repo' [err|]] w' evs|]; simpl in *;
      [by right| |done].
    destruct Hr as (bname & b & _ & ? & (f & r0 & w0 & w2 & w3 & _ & _ & _ & ?) & _).
    split_and!; [done|done|by exists b, w3].
  - destruct (setupBackendFromLocal repo0 w1) as [[repo' [err|]] w' evs|]; simpl in *;
      [by right| |done].
    destruct Hl as (bname & b & _ & ? & (f & r0 & w0 & w2 & w3 & _ & _ & _ & ?) & _).
    split_and!; [done|done|by exists b, w3].
Qed.

(** X14.  A repository built without [setupBackend] cannot be queried:
    each of the three query methods panics on it. *)
Theorem repository_without_setup_cannot_be_queried
    name url cachedir backends checkForUpdates w repo err w1 evs :
  NewRepository name url cachedir backends false checkForUpdates w
  = Ok (Some repo, err) w1 evs →
  ∀ n v r q w2,
    FindLatestMatchingName repo n v r w2 = Panic w2 [] ∧
    FindLatestMatchingRequire repo q w2 = Panic w2 [] ∧
    GetPackages repo w2 = Panic w2 [].
Proof.
  unfold NewRepository. exec.
  destruct (os_MkdirAll cachedir w) as [w' [e|]]; exec; [done|].
  intros [= <- <- <- <-] *.
  unfold FindLatestMatchingName, FindLatestMatchingRequire, GetPackages. done.
Qed.

(** X15.  Without [setupBackend], or without [checkForUpdates],
    [NewRepository] makes no network request, no download and no write
    of the cache file. *)
Theorem NewRepository_offline name url cachedir backends setupBackend checkForUpdates w :
  setupBackend = false ∨ checkForUpdates = false →
  let evs :=
    events (NewRepository name url cachedir backends setupBackend checkForUpdates w) in
  existsb is_network evs = false ∧ downloads evs = false ∧ writes evs = false.
Proof.
  intros Hoff evs. subst evs. unfold NewRepository. exec.
  destruct (os_MkdirAll cachedir w) as [w1 [err|]]; exec; [done|].
  destruct setupBackend; exec; [|done].
  destruct Hoff as [?| ->]; [done|].
  set (repo0 := Repository.mk _ _ _ _ _ _ _ _).
  pose proof (local_steps_quiet _ (local_events_are_local repo0 w1)) as Hq.
  unfold bind.
  destruct (setupBackendFromLocal repo0 w1) as [[repo' [err|]] w' evs|]; simpl in *;
    rewrite ?app_nil_r; done.
Qed.
End Constructor.


(** *** The backend that is chosen *)

Section Chosen.
Context `{Registry}.
Import Repository.

(** What a loop that starts without backend ends with, when every turn
    that breaks does so with a backend that satisfies [P]. *)
Lemma range_Backends_selected (P : Backend.t → Prop) turn :
  (∀ b repo w c vars' w' evs,
     turn b (repo, None) w = Ok (c, vars') w' evs →
     match c with
     | Break => ∃ ba, vars' = (set_Backend repo (Some ba), Some ba) ∧ P ba
     | Continue => vars'.2 = None
     end) →
  ∀ names repo w vars' w' evs,
    range_Backends turn names (repo, None) w = Ok vars' w' evs →
    vars'.2 = None ∨ ∃ ba, vars'.2 = Some ba ∧ Backend vars'.1 = Some ba ∧ P ba.
Proof.
  intros Hturn names. induction names as [|b names IH]; intros repo w vars' w' evs.
  { intros [= <- <- <-]. by left. }
  simpl. unfold bind.
  destruct (turn b (repo, None) w) as [[c [repo1 backend1]] w1 evs1|] eqn:Ht; [|done].
  specialize (Hturn _ _ _ _ _ _ _ Ht). destruct c; simpl in *.
  - subst backend1.
    destruct (range_Backends turn names (repo1, None) w1) as [v w2 evs2|] eqn:Hr; [|done].
    simpl. intros [= <- <- <-]. by eapply IH.
  - destruct Hturn as (ba & [= -> ->] & HP). intros [= <- <- <-]. right. by exists ba.
Qed.

Lemma remote_turn_chosen rd rmd lmd b repo w c vars' w' evs :
  setupBackendFromRemote_turn rd rmd lmd b (repo, None) w = Ok (c, vars') w' evs →
  match c with
  | Break => ∃ ba, vars' = (set_Backend repo (Some ba), Some ba) ∧
                   (map_index rmd (Backend.YumDataType ba)).2 = true
  | Continue => vars'.2 = None
  end.
Proof.
  unfold setupBackendFromRemote_turn.
  destruct (NewBackend_returns b repo w) as ([ba err] & w1 & Hnb).
  rewrite (bind_Ok _ _ _ _ _ _ Hnb). simpl in *.
  destruct err as [err|]; exec; [by intros [= <- <- <- <-]|].
  destruct ba as [ba|]; exec; [|done].
  destruct (map_index rmd (Backend.YumDataType ba)) as [rrepomd []] eqn:Hr; exec;
    [|by intros [= <- <- <- <-]].
  destruct (map_index lmd (Backend.YumDataType ba)) as [lrepomd ?]; exec.
  assert (∀ w3 evs3,
            after evs3 (load_candidate b (set_Backend repo (Some ba), Some ba) w3)
            = Ok (c, vars') w' evs →
            match c with
            | Break => ∃ ba0, vars' = (set_Backend repo (Some ba0), Some ba0) ∧
                              (map_index rmd (Backend.YumDataType ba0)).2 = true
            | Continue => vars'.2 = None
            end) as Hload.
  { intros w3 evs3. rewrite (load_candidate_run _ _ _ ba) by done. simpl.
    destruct (Backend.LoadDB ba w3) as [w4 [e|]]; simpl; intros [= <- <- <- <-]; [done|].
    exists ba. by rewrite Hr. }
  destruct (needs_update _ _ _); exec; [|apply Hload].
  destruct (Backend.GetLatestDB ba _ w1) as [w2 [e|]]; exec; [by intros [= <- <- <- <-]|].
  destruct (ioutil_WriteFile _ _ w2) as [w3 [e|]]; exec; [by intros [= <- <- <- <-]|].
  apply Hload.
Qed.

Lemma local_turn_chosen md b repo w c vars' w' evs :
  setupBackendFromLocal_turn md b (repo, None) w = Ok (c, vars') w' evs →
  match c with
  | Break => ∃ ba, vars' = (set_Backend repo (Some ba), Some ba) ∧
                   (map_index md (Backend.YumDataType ba)).2 = true
  | Continue => vars'.2 = None
  end.
Proof.
  unfold setupBackendFromLocal_turn.
  destruct (NewBackend_returns b repo w) as ([ba err] & w1 & Hnb).
  rewrite (bind_Ok _ _ _ _ _ _ Hnb). simpl in *.
  destruct err as [err|]; exec; [by intros [= <- <- <- <-]|].
  destruct ba as [ba|]; exec; [|done].
  destruct (map_index md (Backend.YumDataType ba)) as [rrepomd []] eqn:Hr; exec;
    [|by intros [= <- <- <- <-]].
  rewrite (load_candidate_run _ _ _ ba) by done. simpl.
  destruct (Backend.LoadDB ba w1) as [w4 [e|]]; simpl; intros [= <- <- <- <-]; [done|].
  exists ba. by rewrite Hr.
Qed.

(** X16.  After a successful synchronisation the data type of the active
    backend is a key of the metadata the run worked from: of the remote
    document in remote-checking mode, of the cached document in
    local-only mode. *)
Theorem active_backend_is_offered repo w repo' w' evs :
  (setupBackendFromRemote repo w = Ok (repo', None) w' evs →
   ∃ rd w1 evs1 rmd ba,
     remoteMetadata repo w = Ok (rd, None) w1 evs1 ∧ checkRepoMD repo rd = (rmd, None) ∧
     Backend repo' = Some ba ∧ (map_index rmd (Backend.YumDataType ba)).2 = true) ∧
  (setupBackendFromLocal repo w = Ok (repo', None) w' evs →
   ∃ ld w1 evs1 md ba,
     localMetadata repo w = Ok (ld, None) w1 evs1 ∧ checkRepoMD repo ld = (md, None) ∧
     Backend repo' = Some ba ∧ (map_index md (Backend.YumDataType ba)).2 = true).
Proof.
  split.
  - unfold setupBackendFromRemote.
    destruct (remoteMetadata_returns repo w) as ([rd err] & w1 & Hrm).
    rewrite (bind_Ok _ _ _ _ _ _ Hrm). simpl.
    destruct err as [err|]; [done|].
    destruct (checkRepoMD repo rd) as [rmd [err|]] eqn:Hp; [done|].
    destruct (localMetadata_returns repo w1) as ([ld lerr] & w2 & evs1 & Hlm & _).
    rewrite (bind_Ok _ _ _ _ _ _ Hlm). simpl.
    destruct lerr as [err|]; [done|].
    destruct (checkRepoMD repo ld) as [lmd [err|]]; [done|].
    unfold bind.
    destruct (range_Backends _ (Backends repo) (repo, None) w2) as [vars w3 evs3|] eqn:Hr;
      [|done].
    destruct (range_Backends_selected _ _ (remote_turn_chosen rd rmd lmd) _ _ _ _ _ _ Hr)
      as [Hn|(ba & Hv & Hb & HP)]; unfold conclude; simpl.
    + by rewrite Hn.
    + rewrite Hv. simpl. intros [= <- <- <-]. by eexists rd, w1, _, rmd, ba.
  - unfold setupBackendFromLocal.
    destruct (localMetadata_returns repo w) as ([ld lerr] & w2 & evs1 & Hlm & _).
    rewrite (bind_Ok _ _ _ _ _ _ Hlm). simpl.
    destruct lerr as [err|]; [done|].
    destruct (checkRepoMD repo ld) as [md [err|]] eqn:Hp; [done|].
    unfold bind.
    destruct (range_Backends _ (Backends repo) (repo, None) w2) as [vars w3 evs3|] eqn:Hr;
      [|done].
    destruct (range_Backends_selected _ _ (local_turn_chosen md) _ _ _ _ _ _ Hr)
      as [Hn|(ba & Hv & Hb & HP)]; unfold conclude; simpl.
    + by rewrite Hn.
    + rewrite Hv. simpl. intros [= <- <- <-]. by eexists ld, w2, _, md, ba.
Qed.

Lemma remote_turn_load p rd b en tpre b' r tpost :
  remote_turn_events p rd b en (tpre ++ EvLoadDB b' r :: tpost) →
  b' = b ∧ tpost = [] ∧
  ((∃ tpre', tpre = tpre' ++ [EvHasDB b true]) ∨
   (∃ tpre' url, tpre = tpre' ++ [EvGetLatestDB b url None; EvWriteFile p rd None])).
Proof.
  intros HT. inversion HT; subst;
    repeat (destruct tpre as [|? tpre]; simplify_eq/=; try done);
    (split; [done|split; [done|]]);
    first [left; by eexists [_] | right; by eexists [_; _], _].
Qed.

(** X17.  In remote-checking mode [LoadDB] is called on a candidate only
    right after its [HasDB()] returned true, or right after its download
    and the write of the cache file both succeeded; and it is the last
    call of the candidate's turn. *)
Theorem load_follows_database_or_download repo w pre b r post :
  events (setupBackendFromRemote repo w) = pre ++ EvLoadDB b r :: post →
  ((∃ pre', pre = pre' ++ [EvHasDB b true]) ∨
   (∃ pre' url data,
      pre = pre' ++ [EvGetLatestDB b url None; EvWriteFile (LocalRepoMdXml repo) data None])) ∧
  (post = [] ∨ ∃ b' r' tl, post = EvNewBackend b' r' :: tl).
Proof.
  intros Heq.
  destruct (setupBackendFromRemote_report repo w)
    as [(err & w' & _ & Hmeta)|(rd & w1 & evs0 & evs & o & Hrm & Hev & Hmeta & HL & _)].
  { rewrite forallb_forall in Hmeta.
    specialize (Hmeta (EvLoadDB b r)). rewrite Heq in Hmeta.
    discriminate Hmeta. apply in_or_app. right. by left. }
  rewrite Hev in Heq.
  destruct (event_in_loop _ _ _ _ _ Heq Hmeta eq_refl) as (lpre & Hl & ->).
  destruct (loop_events_turn _ (remote_turn_starts _ _) _ _ _ HL _ _ _ Hl)
    as (b0 & en & tpre & tpost & before & rest & _ & HT & -> & -> & Hrest & _).
  destruct (remote_turn_load _ _ _ _ _ _ _ _ HT) as (-> & -> & Hprev).
  split; [|done].
  destruct Hprev as [(tpre' & ->)|(tpre' & url & ->)].
  - left. exists (evs0 ++ before ++ tpre'). by rewrite !app_assoc.
  - right. exists (evs0 ++ before ++ tpre'), url, rd. by rewrite !app_assoc.
Qed.
End Chosen.

(** *** Runs on the small host *)

Module Runs.
Import Demo Repository.

(** C1 fails as stated: the [flat] database is there and the cached
    metadata has no record at all, so the policy of the specification asks
    for no update; the code downloads.  With a cached record of the same
    timestamp and nothing else changed, it does not. *)
Lemma missing_local_record_forces_download :
  Backend.HasDB flat_ok w_flat_only = true ∧
  map_index md_new "flat" = (flat_record, true) ∧
  map_index None "flat" = (RepoMD_zero, false) ∧
  spec_needs_update true flat_record None = false ∧
  downloads (events (flat_turn None)) = true ∧
  downloads (events (flat_turn md_old)) = false.
Proof. vm_compute. done. Qed.

Lemma download_iff_stale_witness :
  let evs := events (flat_turn None) in
  (downloads evs = true ↔
     Backend.HasDB flat_ok w_flat_only = false ∨
     GoTime.After (GoTime.Unix 1000 0) (Timestamp (map_index None "flat").1) = true) ∧
  ((map_index None "flat").2 = false → Backend.HasDB flat_ok w_flat_only = true →
     (downloads evs = true ↔ GoTime.After (GoTime.Unix 1000 0) GoTime.zero = true)) ∧
  ((map_index None "flat").2 = false →
     ∀ s n, - GoTime.unixToInternal < s < 2 ^ 63 - GoTime.unixToInternal →
            0 <= n < 1000000000 →
            GoTime.Unix 1000 0 = GoTime.Unix s n → downloads evs = true) ∧
  ((map_index None "flat").2 = false → Backend.HasDB flat_ok w_flat_only = true →
     ∀ s n, - 2 ^ 63 <= s < 2 ^ 63 →
            s < - GoTime.unixToInternal ∨ 2 ^ 63 - GoTime.unixToInternal <= s →
            0 <= n < 1000000000 →
            GoTime.Unix 1000 0 = GoTime.Unix s n → downloads evs = false).
Proof.
  apply (@download_iff_stale up reg doc_new md_new None "flat" (repo_of ["flat"] None) None
           w_flat_only flat_ok w_flat_only [EvNewBackend "flat" None] flat_record).
  - reflexivity.
  - reflexivity.
Defined.

Lemma no_download_on_equal_timestamps_witness :
  let evs := events (flat_turn md_old) in
  (Timestamp flat_record = Timestamp flat_record → downloads evs = false) ∧
  (downloads evs = true ↔
     GoTime.sec (Timestamp flat_record) < GoTime.sec (Timestamp flat_record) ∨
     GoTime.sec (Timestamp flat_record) = GoTime.sec (Timestamp flat_record) ∧
     GoTime.nsec (Timestamp flat_record) < GoTime.nsec (Timestamp flat_record)).
Proof.
  apply (@no_download_on_equal_timestamps up reg doc_new md_new md_old "flat"
           (repo_of ["flat"] None) None w_flat_only flat_ok w_flat_only
           [EvNewBackend "flat" None] flat_record flat_record); reflexivity.
Defined.

(** C2 fails as stated: [sqlite] downloads, the cache file is written,
    the load fails; [flat] needs no update and wins.  The file was written
    for a candidate that did not win, and it keeps the remote document. *)
Lemma cache_written_for_a_loser :
  events (run_both w_both_cached)
  = [EvHttpGet "http://repo/repodata/repomd.xml"; EvOpen "/cache/repomd.xml";
     EvNewBackend "sqlite" None; EvHasDB "sqlite" true;
     EvGetLatestDB "sqlite" "http://repo/repodata/primary.sqlite.bz2" None;
     EvWriteFile "/cache/repomd.xml" doc_new None;
     EvLoadDB "sqlite" (Some (errorString "cannot load the database"));
     EvNewBackend "flat" None; EvHasDB "flat" true; EvLoadDB "flat" None] ∧
  w_both_cached !! "/cache/repomd.xml" = Some doc_old ∧
  final (run_both w_both_cached) !! "/cache/repomd.xml" = Some doc_new ∧
  ¬ spec_cache_only_by_winner (events (run_both w_both_cached)).
Proof.
  assert (events (run_both w_both_cached)
          = [EvHttpGet "http://repo/repodata/repomd.xml"; EvOpen "/cache/repomd.xml";
             EvNewBackend "sqlite" None; EvHasDB "sqlite" true;
             EvGetLatestDB "sqlite" "http://repo/repodata/primary.sqlite.bz2" None;
             EvWriteFile "/cache/repomd.xml" doc_new None;
             EvLoadDB "sqlite" (Some (errorString "cannot load the database"));
             EvNewBackend "flat" None; EvHasDB "flat" true; EvLoadDB "flat" None]) as Hev
    by (vm_compute; reflexivity).
  split_and!; [exact Hev|by vm_compute|by vm_compute|].
  intros Hspec. rewrite Hev in Hspec.
  specialize (Hspec [EvHttpGet "http://repo/repodata/repomd.xml"; EvOpen "/cache/repomd.xml";
                     EvNewBackend "sqlite" None; EvHasDB "sqlite" true]
                    "sqlite" _ _ _ _ _ eq_refl).
  discriminate Hspec.
Qed.

Lemma cache_written_after_each_download_witness :
  let e := EvWriteFile "/cache/repomd.xml" doc_new None in
  let pre := [EvHttpGet "http://repo/repodata/repomd.xml"; EvOpen "/cache/repomd.xml";
              EvNewBackend "sqlite" None; EvHasDB "sqlite" true;
              EvGetLatestDB "sqlite" "http://repo/repodata/primary.sqlite.bz2" None] in
  let post := [EvLoadDB "sqlite" (Some (errorString "cannot load the database"));
               EvNewBackend "flat" None; EvHasDB "flat" true; EvLoadDB "flat" None] in
  events (run_both w_both_cached) = pre ++ e :: post ∧
  (is_write e = true →
     ∃ rd w1 err b url pre',
       @remoteMetadata up (repo_of ["sqlite"; "flat"] None) w_both_cached
       = @Ok up _ (rd, None) w1 [EvHttpGet "http://repo/repodata/repomd.xml"] ∧
       e = EvWriteFile "/cache/repomd.xml" rd err ∧
       pre = pre' ++ [EvGetLatestDB b url None]).
Proof.
  intros e pre post.
  assert (events (run_both w_both_cached) = pre ++ e :: post) as Hev
    by (vm_compute; reflexivity).
  split; [exact Hev|].
  exact (proj1 (@cache_written_after_each_download up reg
                  (repo_of ["sqlite"; "flat"] None) w_both_cached pre e post Hev)).
Defined.

(** C3 fails as stated: a query on a repository without backend panics;
    no error is returned. *)
Lemma query_without_backend_panics :
  @FindLatestMatchingName up (repo_of [] None) "bash" "4.2" "1" w_flat_only
  = @Panic up _ w_flat_only [] ∧
  @FindLatestMatchingRequire up (repo_of [] None) "libc.so.6" w_flat_only
  = @Panic up _ w_flat_only [] ∧
  @GetPackages up (repo_of [] None) w_flat_only = @Panic up _ w_flat_only [] ∧
  ¬ spec_query_fails
      (@FindLatestMatchingName up (repo_of [] None) "bash" "4.2" "1" w_flat_only) ∧
  ¬ spec_query_fails
      (@FindLatestMatchingRequire up (repo_of [] None) "libc.so.6" w_flat_only).
Proof.
  split_and!; try reflexivity; by intros (a & err & w & evs & ?).
Qed.

Lemma queries_forward_to_the_backend_witness :
  Backend (repo_of [] None) = None ∧
  @FindLatestMatchingName up (repo_of [] None) "bash" "4.2" "1" w_flat_only
  = @Panic up _ w_flat_only [] ∧
  Backend (repo_of [] (Some flat_ok)) = Some flat_ok ∧
  @FindLatestMatchingName up (repo_of [] (Some flat_ok)) "bash" "4.2" "1" w_flat_only
  = @Ok up _ ("bash", None) w_flat_only [].
Proof.
  split_and!; [reflexivity| |reflexivity|].
  - exact (proj1 (proj1 (@queries_forward_to_the_backend up (repo_of [] None))
                    eq_refl "bash" "4.2" "1" "" w_flat_only)).
  - exact (proj1 (proj2 (@queries_forward_to_the_backend up (repo_of [] (Some flat_ok)))
                    flat_ok eq_refl "bash" "4.2" "1" "" w_flat_only)).
Defined.



Lemma candidate_failures_stay_in_the_loop_witness :
  let repo := repo_of ["sqlite"; "flat"] None in
  @remote_metadata_error up repo w_both_cached = None ∧
  match run_both w_both_cached with
  | Ok (repo', None) w' evs =>
      ∃ pre b post ba evs0,
        ["sqlite"; "flat"] = pre ++ b :: post ∧ tried evs = pre ++ [b] ∧
        evs = evs0 ++ [EvLoadDB b None] ∧ existsb is_loaded evs0 = false ∧
        repo' = set_Backend repo (Some ba) ∧ @built_and_loaded up reg b ba w'
  | _ => False
  end ∧
  @local_metadata_error up repo w_flat_only = None ∧
  match @setupBackendFromLocal up reg repo w_flat_only with
  | Ok (repo', Some err) _ evs =>
      err = fmt_Errorf "No valid backend found" ∧ tried evs = ["sqlite"; "flat"] ∧
      existsb is_loaded evs = false ∧ (repo' = repo ∨ repo' = set_Backend repo None)
  | _ => False
  end.
Proof.
  intros repo.
  split; [reflexivity|]. split.
  - exact (proj1 (proj1 (@candidate_failures_stay_in_the_loop up reg repo w_both_cached))).
  - split; [reflexivity|].
    exact (proj1 (proj2 (@candidate_failures_stay_in_the_loop up reg repo w_flat_only))).
Defined.

(** What the two reports rule out, on results the code does not
    produce: a failure over the candidates with no candidate tried, a run
    that goes on after a successful load, and an active backend that is
    not the one built for the candidate loaded last. *)
Lemma report_rules_out_an_untried_failure :
  let repo := repo_of ["sqlite"; "flat"] None in
  ¬ @selection_report up reg (@remote_metadata_error up repo w_both_cached) repo
      (@Ok up _ (repo, Some (fmt_Errorf "No valid backend found")) w_both_cached []).
Proof.
  intros repo [H _].
  change (@remote_metadata_error up repo w_both_cached) with (@None error) in H.
  simpl in H. destruct H as (_ & H & _). discriminate H.
Qed.

Lemma report_rules_out_going_on_after_a_load :
  let repo := repo_of ["sqlite"; "flat"] None in
  ¬ @selection_report up reg None repo
      (@Ok up _ (set_Backend repo (Some flat_ok), None) w_both_cached
         [EvNewBackend "sqlite" None; EvLoadDB "sqlite" None;
          EvNewBackend "flat" None; EvLoadDB "flat" None]).
Proof.
  intros repo [H _]. simpl in H.
  destruct H as (pre & b & post & ba & evs0 & _ & _ & Hev & Hl & _).
  change [EvNewBackend "sqlite" None; EvLoadDB "sqlite" None;
          EvNewBackend "flat" None; EvLoadDB "flat" None]
    with ([EvNewBackend "sqlite" None; EvLoadDB "sqlite" None;
           EvNewBackend "flat" None] ++ [EvLoadDB "flat" None]) in Hev.
  apply app_inj_tail in Hev as [<- _]. discriminate Hl.
Qed.

Lemma invariant_tells_the_candidates_apart :
  let repo := repo_of ["sqlite"; "flat"] None in
  ¬ @sync_invariant up reg repo
      (@Ok up _ (set_Backend repo (Some flat_ok), None) w_both_cached
         [EvNewBackend "sqlite" None; EvLoadDB "sqlite" None]).
Proof.
  intros repo H. simpl in H.
  destruct H as (bname & ba & _ & Hba & (f & r0 & w0 & w1 & w2 & Hf & Hb & _) & Hlast).
  injection Hlast as <-. injection Hba as <-.
  change (@g_backends up reg !! "sqlite") with
    (Some ((λ _ w, (w, (Some sqlite_broken, None))) : @factory up)) in Hf.
  injection Hf as <-. simpl in Hb.
  assert (Backend.YumDataType sqlite_broken = Backend.YumDataType flat_ok) as Hty
    by congruence.
  discriminate Hty.
Qed.

Lemma empty_metadata_is_an_empty_mapping_witness :
  @path_exists up "/cache/repomd.xml" w_flat_only = false ∧
  @localMetadata up (repo_of [] None) w_flat_only = @Ok up _ ([], None) w_flat_only [] ∧
  @path_exists up "/cache/repomd.xml" w_empty_cache = true ∧
  @localMetadata up (repo_of [] None) w_empty_cache
  = @Ok up _ ([], None) w_empty_cache [EvOpen "/cache/repomd.xml"] ∧
  @checkRepoMD up (repo_of [] None) [] = (None, None).
Proof.
  pose proof (@empty_metadata_is_an_empty_mapping up (repo_of [] None) w_flat_only)
    as (_ & _ & Hmissing & _).
  pose proof (@empty_metadata_is_an_empty_mapping up (repo_of [] None) w_empty_cache)
    as (_ & _ & _ & Hempty).
  split_and!; [reflexivity|exact (proj1 (Hmissing eq_refl))|reflexivity| |reflexivity].
  exact (proj1 (Hempty [] w_empty_cache w_empty_cache eq_refl eq_refl eq_refl)).
Defined.

(** C10 fails as stated: [flat] wins without needing an update, and the
    cache file was written during the run, for [sqlite]. *)
Lemma kept_winner_yet_cache_written :
  events (run_both w_flat_cached)
  = [EvHttpGet "http://repo/repodata/repomd.xml"; EvOpen "/cache/repomd.xml";
     EvNewBackend "sqlite" None; EvHasDB "sqlite" false;
     EvGetLatestDB "sqlite" "http://repo/repodata/primary.sqlite.bz2" None;
     EvWriteFile "/cache/repomd.xml" doc_new None;
     EvLoadDB "sqlite" (Some (errorString "cannot load the database"));
     EvNewBackend "flat" None; EvHasDB "flat" true; EvLoadDB "flat" None] ∧
  needs_update (Backend.HasDB flat_ok (<["/cache/sqlite.db" := db]> w_flat_cached))
               (map_index md_new "flat").1 (map_index md_old "flat").1 = false ∧
  writes (events (run_both w_flat_cached)) = true ∧
  ¬ spec_kept_winner_no_write (events (run_both w_flat_cached)).
Proof.
  assert (events (run_both w_flat_cached)
          = [EvHttpGet "http://repo/repodata/repomd.xml"; EvOpen "/cache/repomd.xml";
             EvNewBackend "sqlite" None; EvHasDB "sqlite" false;
             EvGetLatestDB "sqlite" "http://repo/repodata/primary.sqlite.bz2" None;
             EvWriteFile "/cache/repomd.xml" doc_new None;
             EvLoadDB "sqlite" (Some (errorString "cannot load the database"))]
            ++ [EvNewBackend "flat" None; EvHasDB "flat" true; EvLoadDB "flat" None]) as Hev
    by (vm_compute; reflexivity).
  split_and!; [exact Hev|by vm_compute|by rewrite Hev|].
  intros Hspec. specialize (Hspec _ _ Hev). by rewrite Hev in Hspec.
Qed.

Lemma kept_database_leaves_cache_alone_witness :
  needs_update (Backend.HasDB flat_ok w_flat_only) flat_record
               (map_index md_old "flat").1 = false ∧
  events (flat_turn md_old)
  = [EvNewBackend "flat" None; EvHasDB "flat" true; EvLoadDB "flat" None] ∧
  writes (events (@setupBackendFromRemote up reg (repo_of ["flat"] None) w_flat_cached))
  = false.
Proof.
  assert (needs_update (Backend.HasDB flat_ok w_flat_only) flat_record
                       (map_index md_old "flat").1 = false) as Hn by reflexivity.
  destruct (@kept_database_leaves_cache_alone up reg doc_new md_new md_old "flat"
              (repo_of ["flat"] None) None w_flat_only flat_ok w_flat_only
              [EvNewBackend "flat" None] flat_record eq_refl eq_refl Hn) as [Hturn Hrun].
  split_and!; [exact Hn|exact Hturn|].
  exact (Hrun (repo_of ["flat"] None) w_flat_cached
           [EvHttpGet "http://repo/repodata/repomd.xml"; EvOpen "/cache/repomd.xml"] eq_refl).
Defined.
Lemma timestamp_is_floor_and_truncated_fraction_witness :
  valid_binary F64.prec F64.emax f1000_5 = true ∧ F64.fits_int64 f1000_5 ∧
  F64.is_floor f1000_5 (F64.to_int64 (F64.Floor f1000_5)) ∧
  F64.to_int64 (F64.Floor f1000_5) = 1000 ∧
  F64.to_int64 (F64.mul (F64.sub f1000_5 (F64.of_int64 1000)) F64.f1e9) = 500000000 ∧
  F64.exact (F64.sub f1000_5 (F64.of_int64 1000)) (2001 * 2 ^ 42 - 1000 * 2 ^ 43) (- 43).
Proof.
  assert (valid_binary F64.prec F64.emax f1000_5 = true) as Hv by reflexivity.
  assert (F64.fits_int64 f1000_5) as Hf by (by vm_compute).
  pose proof (timestamp_is_floor_and_truncated_fraction
                (xmlTree.mkEntry "sqlite" "c0ffee" "repodata/primary.sqlite.bz2" f1000_5))
    as (_ & Hfloor & _ & Hexact & H1000 & _).
  destruct (H1000 eq_refl) as (Hsec & Hnsec & _).
  destruct (Hexact _ _ eq_refl Hv eq_refl) as [_ Hx].
  split_and!; [exact Hv|exact Hf|exact (Hfloor Hv Hf)|exact Hsec| |].
  - rewrite <- Hsec. exact Hnsec.
  - rewrite <- Hsec. exact Hx.
Defined.
End Runs.

(** *** More runs on the small host *)

Module MoreRuns.
Import Demo Demo2 Repository.

Lemma checkRepoMD_last_entry_wins_witness :
  doc_dup ≠ [] ∧ @xml_Unmarshal dup doc_dup = inl tree_dup ∧
  map_index (@checkRepoMD dup (repo_on dup []) doc_dup).1 "sqlite"
  = (mkRepoMD "c0ffee" (GoTime.Unix 1000 500000000) "repodata/primary.sqlite.bz2", true).
Proof.
  assert (doc_dup ≠ []) as Hne by done.
  split_and!; [exact Hne|reflexivity|].
  exact (proj2 (@checkRepoMD_last_entry_wins dup (repo_on dup []) doc_dup tree_dup "sqlite"
                  Hne eq_refl)).
Defined.

Lemma checkRepoMD_instants_normalised_witness :
  (@checkRepoMD up (repo_of [] None) doc_new).1 = Some map_new ∧
  map_new !! "sqlite"
  = Some (mkRepoMD "c0ffee" (GoTime.Unix 1000 500000000) "repodata/primary.sqlite.bz2") ∧
  0 <= 500000000 < 1000000000.
Proof.
  assert ((@checkRepoMD up (repo_of [] None) doc_new).1 = Some map_new) as Hm
    by (vm_compute; reflexivity).
  assert (map_new !! "sqlite"
          = Some (mkRepoMD "c0ffee" (GoTime.Unix 1000 500000000)
                    "repodata/primary.sqlite.bz2")) as Hk by (vm_compute; reflexivity).
  split; [exact Hm|split; [exact Hk|]].
  exact (@checkRepoMD_instants_normalised up (repo_of [] None) doc_new map_new "sqlite" _
           Hm Hk).
Defined.

Lemma remote_metadata_failure_aborts_witness :
  @setupBackendFromRemote down reg_down (repo_on down ["flat"]) w_flat_only
  = @Ok down _ (repo_on down ["flat"], Some (errorString "dial tcp: connection refused"))
        w_flat_only [EvHttpGet "http://repo/repodata/repomd.xml"].
Proof.
  apply (proj1 (@remote_metadata_failure_aborts down reg_down (repo_on down ["flat"])
                  w_flat_only) [] _ _ [EvHttpGet "http://repo/repodata/repomd.xml"]).
  reflexivity.
Defined.

Lemma local_metadata_failure_aborts_witness :
  ∃ err, @setupBackendFromLocal up reg (repo_of ["flat"] None) w_bad_cache
         = @Ok up _ (repo_of ["flat"] None, Some err) w_bad_cache
               [EvOpen "/cache/repomd.xml"] ∧
         tried [EvOpen "/cache/repomd.xml"] = [] ∧
         ((None : option error) = None →
          (@checkRepoMD up (repo_of ["flat"] None) doc_bad).2 = Some err) ∧
         ((None : option error) ≠ None → (None : option error) = Some err).
Proof.
  apply (@local_metadata_failure_aborts up reg (repo_of ["flat"] None) w_bad_cache
           doc_bad None w_bad_cache [EvOpen "/cache/repomd.xml"]).
  - reflexivity.
  - right. discriminate.
Defined.

Lemma local_without_entries_fails_witness :
  @path_exists up "/cache/repomd.xml" w_flat_only = false ∧
  existsb is_database_call
    (events (@setupBackendFromLocal up reg (repo_of ["sqlite"; "flat"] None) w_flat_only))
  = false ∧
  match @setupBackendFromLocal up reg (repo_of ["sqlite"; "flat"] None) w_flat_only with
  | Ok (repo', err) _ _ =>
      repo' = repo_of ["sqlite"; "flat"] None ∧
      err = Some (fmt_Errorf "No valid backend found") ∧
      tried (events (@setupBackendFromLocal up reg (repo_of ["sqlite"; "flat"] None)
                       w_flat_only))
      = ["sqlite"; "flat"]
  | Panic _ _ => True
  end.
Proof.
  split; [reflexivity|].
  exact (proj2 (@local_without_entries_fails up reg (repo_of ["sqlite"; "flat"] None)
                  w_flat_only) eq_refl).
Defined.

Lemma remote_without_entries_fails_witness :
  let r := @setupBackendFromRemote mute reg_mute (repo_on mute ["flat"]) w_flat_only in
  existsb is_database_call (events r) = false ∧ writes (events r) = false ∧
  match r with
  | Ok (repo', Some err) _ _ =>
      repo' = repo_on mute ["flat"] ∧
      (tried (events r) = [] ∨
       err = fmt_Errorf "No valid backend found" ∧ tried (events r) = ["flat"])
  | Ok (_, None) _ _ => False
  | Panic _ _ => True
  end.
Proof.
  apply (@remote_without_entries_fails mute reg_mute (repo_on mute ["flat"]) w_flat_only
           [] w_flat_only [EvHttpGet "http://repo/repodata/repomd.xml"] None).
  - reflexivity.
  - reflexivity.
  - done.
Defined.

Lemma unregistered_names_are_skipped_witness :
  @registered up reg "rpm" = false ∧
  same_outcome
    (@range_Backends up (@setupBackendFromLocal_turn up reg md_old) ["rpm"; "flat"]
       (repo_of [] None, None) w_flat_cached)
    (@range_Backends up (@setupBackendFromLocal_turn up reg md_old) ["flat"]
       (repo_of [] None, None) w_flat_cached).
Proof.
  split; [reflexivity|].
  exact (proj1 (proj2 (@unregistered_names_are_skipped up reg ["rpm"; "flat"]
                         (repo_of [] None, None) w_flat_cached)) md_old).
Defined.

Lemma downloads_come_from_the_repository_witness :
  Forall (offered_download "http://repo" md_new) (events (run_both w_both_cached)).
Proof.
  apply (@downloads_come_from_the_repository up reg (repo_of ["sqlite"; "flat"] None)
           w_both_cached doc_new w_both_cached
           [EvHttpGet "http://repo/repodata/repomd.xml"] md_new); reflexivity.
Defined.

Lemma fresh_cache_downloads_only_missing_databases_witness :
  events (run_both w_fresh_cache)
  = [EvHttpGet "http://repo/repodata/repomd.xml"; EvOpen "/cache/repomd.xml";
     EvNewBackend "sqlite" None; EvHasDB "sqlite" false;
     EvGetLatestDB "sqlite" "http://repo/repodata/primary.sqlite.bz2" None;
     EvWriteFile "/cache/repomd.xml" doc_new None;
     EvLoadDB "sqlite" (Some (errorString "cannot load the database"));
     EvNewBackend "flat" None; EvHasDB "flat" true; EvLoadDB "flat" None] ∧
  downloads_only_without_db (events (run_both w_fresh_cache)).
Proof.
  split; [by vm_compute|].
  apply (@fresh_cache_downloads_only_missing_databases up reg
           (repo_of ["sqlite"; "flat"] None) w_fresh_cache doc_new w_fresh_cache
           [EvHttpGet "http://repo/repodata/repomd.xml"] w_fresh_cache
           [EvOpen "/cache/repomd.xml"] md_new); reflexivity.
Defined.

Lemma repository_without_setup_cannot_be_queried_witness :
  @FindLatestMatchingName up
    (Repository.mk up "lhcb" "http://repo" "http://repo/repodata/repomd.xml"
       "/cache/repomd.xml" "/cache" ["flat"] None) "bash" "4.2" "1" w_flat_only
  = @Panic up _ w_flat_only [].
Proof.
  refine (proj1 (@repository_without_setup_cannot_be_queried up reg
                   "lhcb" "http://repo" "/cache" ["flat"] true w_flat_only
                   _ None w_flat_only [] _ "bash" "4.2" "1" "" w_flat_only)).
  reflexivity.
Defined.

Lemma NewRepository_offline_witness :
  let evs := events (@NewRepository up reg "lhcb" "http://repo" "/cache"
                       ["sqlite"; "flat"] true false w_both_cached) in
  existsb is_network evs = false ∧ downloads evs = false ∧ writes evs = false.
Proof.
  apply (@NewRepository_offline up reg). by right.
Defined.

Lemma active_backend_is_offered_witness :
  ∃ rd w1 evs1 rmd ba,
    @remoteMetadata up (repo_of ["sqlite"; "flat"] None) w_both_cached
    = Ok (rd, None) w1 evs1 ∧
    @checkRepoMD up (repo_of ["sqlite"; "flat"] None) rd = (rmd, None) ∧
    Backend (repo_of ["sqlite"; "flat"] (Some flat_ok)) = Some ba ∧
    (map_index rmd (Backend.YumDataType ba)).2 = true.
Proof.
  refine (proj1 (@active_backend_is_offered up reg (repo_of ["sqlite"; "flat"] None)
                   w_both_cached (repo_of ["sqlite"; "flat"] (Some flat_ok)) _ _) _).
  reflexivity.
Defined.

Lemma load_follows_database_or_download_witness :
  let pre := [EvHttpGet "http://repo/repodata/repomd.xml"; EvOpen "/cache/repomd.xml";
              EvNewBackend "sqlite" None; EvHasDB "sqlite" true;
              EvGetLatestDB "sqlite" "http://repo/repodata/primary.sqlite.bz2" None;
              EvWriteFile "/cache/repomd.xml" doc_new None;
              EvLoadDB "sqlite" (Some (errorString "cannot load the database"));
              EvNewBackend "flat" None; EvHasDB "flat" true] in
  events (run_both w_both_cached) = pre ++ [EvLoadDB "flat" None] ∧
  ((∃ pre', pre = pre' ++ [EvHasDB "flat" true]) ∨
   (∃ pre' url data,
      pre = pre' ++ [EvGetLatestDB "flat" url None;
                     EvWriteFile "/cache/repomd.xml" data None])).
Proof.
  intros pre.
  assert (events (run_both w_both_cached) = pre ++ [EvLoadDB "flat" None]) as Hev
    by (vm_compute; reflexivity).
  split; [exact Hev|].
  exact (proj1 (@load_follows_database_or_download up reg (repo_of ["sqlite"; "flat"] None)
                  w_both_cached pre "flat" None [] Hev)).
Defined.
Lemma metadata_fetch_error_drops_the_bytes_witness :
  ∃ data err w' evs,
    @remoteMetadata down (repo_on down ["flat"]) w_flat_only
    = @Ok down _ (data, Some err) w' evs ∧
    is_EOF err = false ∧ data = [].
Proof.
  eexists _, _, _, _. split; [reflexivity|]. split; [reflexivity|].
  exact (proj1 (@metadata_fetch_error_drops_the_bytes down (repo_on down ["flat"])
                  w_flat_only) eq_refl).
Defined.

End MoreRuns.
